(** * Diagnostic Overlay Rig: focus check and blob detection

    A shallow embedding of [Focus.py] and [main.py].

    Numbers.  Python floats are modelled by exact rationals ([Q]); rounding
    of IEEE doubles is outside the model.  [int(...)] is truncation toward
    zero.  [np.std] is the square root of the population variance, which is
    irrational in general: the executable model keeps the variance and
    compares squares, and section [SqrtBridge] proves that this agrees with
    the comparison written with the square root over the reals. *)

From Stdlib Require Import ZArith QArith Qround Qabs List Bool Lia Lra.
From Stdlib Require Import Reals Qreals.
From Stdlib Require Lqa.
From stdpp Require Import gmap strings.
Import ListNotations.

Local Open Scope Z_scope.

(** ** Numbers *)

Module Num.

(** Python's [int(f)]: truncation toward zero. *)
Definition py_int (q : Q) : Z := Z.quot (Qnum q) (Zpos (Qden q)).

(** Strict comparison of rationals as a boolean, [a < b]. *)
Definition Qltb (a b : Q) : bool := negb (Qle_bool b a).

Definition Qsum (l : list Q) : Q := fold_right Qplus 0%Q l.

(** [np.mean(l)] for a non-empty [l]. *)
Definition np_mean (l : list Q) : Q :=
  (Qsum l / inject_Z (Z.of_nat (length l)))%Q.

(** [np.var(l)]: the population variance; [np.std(l)] is its square root. *)
Definition np_var (l : list Q) : Q :=
  let m := np_mean l in
  np_mean (map (fun x => (x - m) * (x - m))%Q l).

End Num.
Export Num.

(** ** Key points and the returned blobs *)

(** A [cv2.KeyPoint]: [pt] and [size] (the blob diameter). *)
Record KeyPoint := mkKeyPoint { pt : Q * Q; size : Q }.

(** The dictionaries appended to [blobs]: [{'pt': kp.pt, 'size': kp.size}]. *)
Record Blob := mkBlob { b_pt : Q * Q; b_size : Q }.

(** Line 64: [radii = [kp.size / 2 for kp in keypoints]]. *)
Definition radii (keypoints : list KeyPoint) : list Q :=
  map (fun kp => (size kp / 2)%Q) keypoints.

(** Line 65: [mean_radius = np.mean(radii) if radii else 0]. *)
Definition mean_radius (rs : list Q) : Q :=
  match rs with [] => 0%Q | _ => np_mean rs end.

(** Line 66 squared: [std_radius] is the square root of [var_radius]. *)
Definition var_radius (rs : list Q) : Q :=
  match rs with [] => 0%Q | _ => np_var rs end.

(** Lines 70-71: the integers the loop works with. *)
Definition kp_x (kp : KeyPoint) : Z := py_int (fst (pt kp)).
Definition kp_y (kp : KeyPoint) : Z := py_int (snd (pt kp)).
Definition kp_r (kp : KeyPoint) : Z := py_int (size kp / 2).

(** Lines 73-74: the edge-margin test. *)
Definition edge_ok (margin : Q) (w h : Z) (kp : KeyPoint) : bool :=
  let x := kp_x kp in
  let y := kp_y kp in
  let r := kp_r kp in
  Qltb margin (inject_Z (x - r)) &&
  Qltb (inject_Z (x + r)) (inject_Z w - margin) &&
  Qltb margin (inject_Z (y - r)) &&
  Qltb (inject_Z (y + r)) (inject_Z h - margin).

(** Line 76: [std_radius > 0 and abs(r - mean_radius) > 2 * std_radius],
    decided on squares: [var > 0] and [(r - mean)^2 > 4 * var]. *)
Definition size_outlier (mean var : Q) (r : Z) : bool :=
  let d := (inject_Z r - mean)%Q in
  Qltb 0 var && Qltb (4 * var) (d * d).

(** Line 66 as written: [std_radius = np.std(radii) if radii else 0],
    over the reals. *)
Definition std_radius (rs : list Q) : R := sqrt (Q2R (var_radius rs)).

(** Line 76 as written, over the reals, for a radius [r]. *)
Definition non_average (mean_radius std_radius r : R) : Prop :=
  (std_radius > 0 /\ Rabs (r - mean_radius) > 2 * std_radius)%R.

(** ** Images, the OpenCV interface and the world *)

(** A numpy image: single-channel intensity or 3-channel BGR, by rows. *)
Inductive ndarray :=
| Gray (g : list (list Z))
| Color (c : list (list (Z * Z * Z))).

(** [image.shape[:2]] is [(rows, columns)]. *)
Definition shape (a : ndarray) : Z * Z :=
  match a with
  | Gray g => (Z.of_nat (length g), Z.of_nat (length (hd [] g)))
  | Color c => (Z.of_nat (length c), Z.of_nat (length (hd [] c)))
  end.

(** [cv2.SimpleBlobDetector_Params] as [detect_blobs] fills it in.
    [minArea] holds whatever [config.get('blob_min_area')] returned. *)
Record Params := mkParams {
  filterByCircularity : bool;
  filterByConvexity : bool;
  filterByInertia : bool;
  filterByColor : bool;
  blobColor : Z;
  minArea : option Q;
  maxArea : Q;
  minThreshold : Q;
  maxThreshold : Q
}.

Definition channels (a : ndarray) : nat :=
  match a with Gray _ => 1 | Color _ => 3 end.

(** The pixel-level work of the OpenCV calls, which is not part of this
    repository: each field gives the content an OpenCV call computes.
    Blurring and thresholding keep the number of channels. *)
Class OpenCV := {
  bgr2gray : list (list (Z * Z * Z)) -> list (list Z);
  gray2bgr : list (list Z) -> list (list (Z * Z * Z));
  laplacian_var : ndarray -> Q;
  gaussian_blur : ndarray -> ndarray;
  threshold_binary_inv : Q -> Q -> ndarray -> ndarray;
  count_contours : ndarray -> nat;
  blob_detect : Params -> ndarray -> list KeyPoint;
  put_text : ndarray -> bool -> Q -> Z * Z -> Z * Z * Z -> ndarray;
  draw_circle : ndarray -> Z * Z -> Z -> Z * Z * Z -> ndarray;
  gaussian_blur_channels : forall a, channels (gaussian_blur a) = channels a;
  threshold_channels : forall t m a,
    channels (threshold_binary_inv t m a) = channels a
}.

Definition loc := nat.

(** What the program printed or showed, in order. *)
Inductive event :=
| PrintContours (n : nat)
| PrintKeypoints (n : nat)
| PrintBlobCenter (x y r : Z)
| PrintNonAverage (x y r : Z)
| PrintExcluded
| PrintFailedCapture
| PrintFocus (measure : Q) (in_focus : bool)
| Imshow (window : string) (content : ndarray)
| DestroyWindow (window : string)
| CameraRelease
| OperatorFound (found : nat) (expected diff : Q)
| OperatorLargeBlob (b : Blob).

(** The world: the arrays alive in memory, the output so far, and the
    camera and keyboard with the number of reads made from each. *)
Record world := mkWorld {
  heap : gmap loc ndarray;
  log : list event;
  feed : nat -> option ndarray;
  cam_pos : nat;
  keyboard : nat -> Z;
  key_pos : nat
}.

Definition set_heap (f : gmap loc ndarray -> gmap loc ndarray) (w : world) : world :=
  mkWorld (f (heap w)) (log w) (feed w) (cam_pos w) (keyboard w) (key_pos w).
Definition add_log (e : event) (w : world) : world :=
  mkWorld (heap w) (log w ++ [e]) (feed w) (cam_pos w) (keyboard w) (key_pos w).
Definition next_frame (w : world) : world :=
  mkWorld (heap w) (log w) (feed w) (S (cam_pos w)) (keyboard w) (key_pos w).
Definition next_key (w : world) : world :=
  mkWorld (heap w) (log w) (feed w) (cam_pos w) (keyboard w) (S (key_pos w)).

(** ** The monad: state and exceptions *)

Inductive exn :=
| CvError (msg : string)
| Dangling (l : loc).

Inductive res (A : Type) :=
| Ok (a : A)
| Raise (e : exn).
Arguments Ok {A} a.
Arguments Raise {A} e.

Definition M (A : Type) : Type := world -> res A * world.

Definition ret {A} (a : A) : M A := fun w => (Ok a, w).
Definition raise {A} (e : exn) : M A := fun w => (Raise e, w).
Definition bind {A B} (m : M A) (k : A -> M B) : M B :=
  fun w => match m w with
           | (Ok a, w') => k a w'
           | (Raise e, w') => (Raise e, w')
           end.

Notation "'do' x <- m ; k" := (bind m (fun x => k))
  (at level 10, x name, m at level 100, k at level 200).
Notation "'do' ' pat <- m ; k" := (bind m (fun x => match x with pat => k end))
  (at level 10, pat pattern, m at level 100, k at level 200).
Notation "'exec' m ; k" := (bind m (fun _ => k))
  (at level 10, m at level 100, k at level 200).

Definition emit (e : event) : M unit := fun w => (Ok tt, add_log e w).

(** A new array, at an address not in use. *)
Definition alloc (a : ndarray) : M loc :=
  fun w => let l := fresh (dom (heap w)) in
           (Ok l, set_heap (insert l a) w).

Definition load (l : loc) : M ndarray :=
  fun w => match heap w !! l with
           | Some a => (Ok a, w)
           | None => (Raise (Dangling l), w)
           end.

(** Writing into an existing array, in place. *)
Definition store (l : loc) (a : ndarray) : M unit :=
  fun w => match heap w !! l with
           | Some _ => (Ok tt, set_heap (insert l a) w)
           | None => (Raise (Dangling l), w)
           end.

(** The tray configuration: the numeric options of the JSON object. *)
Abbreviation Config := (gmap string Q).

(** ** OpenCV calls on arrays in memory *)

Section Program.
Context `{cv : OpenCV}.

Inductive conversion := COLOR_BGR2GRAY | COLOR_GRAY2BGR.

(** [cv2.cvtColor(src, code)]: returns a new array and rejects a source
    whose number of channels is not the one the code converts from. *)
Definition cvtColor (src : loc) (code : conversion) : M loc :=
  do a <- load src;
  match code, a with
  | COLOR_BGR2GRAY, Color c => alloc (Gray (bgr2gray c))
  | COLOR_GRAY2BGR, Gray g => alloc (Color (gray2bgr g))
  | _, _ => raise (CvError "Invalid number of channels in input image")
  end.

(** [cv2.Laplacian(src, cv2.CV_64F).var()]. *)
Definition Laplacian_var (src : loc) : M Q :=
  do a <- load src; ret (laplacian_var a).

(** [cv2.GaussianBlur(src, (7, 7), 0)]: a new array. *)
Definition GaussianBlur (src : loc) : M loc :=
  do a <- load src; alloc (gaussian_blur a).

(** [cv2.threshold(src, thresh, maxval, cv2.THRESH_BINARY_INV)]: a new array. *)
Definition threshold (src : loc) (thresh maxval : Q) : M loc :=
  do a <- load src; alloc (threshold_binary_inv thresh maxval a).

Definition imshow (window : string) (src : loc) : M unit :=
  do a <- load src; emit (Imshow window a).

(** [len(cv2.findContours(src, ...)[0])]. *)
Definition findContours (src : loc) : M nat :=
  do a <- load src; ret (count_contours a).

(** [detector.detect(src)] for the detector created from [params]. *)
Definition detect (params : Params) (src : loc) : M (list KeyPoint) :=
  do a <- load src; ret (blob_detect params a).

(** [cv2.putText(img, text, org, font, 1, color, 2)] draws into [img]. *)
Definition putText (img : loc) (in_focus : bool) (measure : Q)
    (org : Z * Z) (color : Z * Z * Z) : M unit :=
  do a <- load img; store img (put_text a in_focus measure org color).

(** [cv2.circle(img, center, radius, color, 2)] draws into [img]. *)
Definition circle (img : loc) (center : Z * Z) (radius : Z)
    (color : Z * Z * Z) : M unit :=
  do a <- load img; store img (draw_circle a center radius color).

(** [camera.read()]: the next frame as a new array, or [ret = False]. *)
Definition camera_read : M (option loc) :=
  fun w => match feed w (cam_pos w) with
           | Some a => (do l <- alloc a; ret (Some l)) (next_frame w)
           | None => (Ok None, next_frame w)
           end.

(** [cv2.waitKey(delay)]. *)
Definition waitKey : M Z :=
  fun w => (Ok (keyboard w (key_pos w)), next_key w).

(** ** Focus.py *)

(** [is_camera_in_focus(image, threshold)]. *)
Definition is_camera_in_focus (image : loc) (threshold : Q) : M (bool * Q) :=
  do gray <- cvtColor image COLOR_BGR2GRAY;
  do laplacian_var <- Laplacian_var gray;
  ret (Qltb threshold laplacian_var, laplacian_var).

Definition green : Z * Z * Z := (0, 255, 0).
Definition red : Z * Z * Z := (0, 0, 255).

(** [wait_for_focus]: the [while True] loop, run for at most [fuel]
    iterations.  [Some (Some frame)] is [return frame], [Some None] is
    [return None], and [None] means the loop is still running when the
    fuel is spent. *)
Fixpoint wait_for_focus (fuel : nat) (threshold : Q)
    : M (option (option loc)) :=
  match fuel with
  | O => ret None
  | S fuel' =>
    do r <- camera_read;
    match r with
    | None => exec emit PrintFailedCapture; ret (Some None)
    | Some frame =>
      do '(in_focus, focus_measure) <- is_camera_in_focus frame threshold;
      exec emit (PrintFocus focus_measure in_focus);
      exec putText frame in_focus focus_measure (10, 30)
             (if in_focus then green else red);
      exec imshow "Camera Focus" frame;
      if in_focus then
        exec emit CameraRelease;
        exec emit (DestroyWindow "Camera Focus");
        ret (Some (Some frame))
      else
        do k <- waitKey;
        if Z.land k 255 =? 27 then
          exec emit CameraRelease;
          exec emit (DestroyWindow "Camera Focus");
          ret (Some None)
        else wait_for_focus fuel' threshold
    end
  end.

(** ** main.py *)

(** Lines 49-58: the detector parameters. *)
Definition blob_params (min_area : option Q) (max_area : Q) : Params :=
  {| filterByCircularity := false;
     filterByConvexity := false;
     filterByInertia := false;
     filterByColor := true;
     blobColor := 255;
     minArea := min_area;
     maxArea := max_area;
     minThreshold := 10;
     maxThreshold := 255 |}.

(** Lines 69-83: the loop over the key points, with [blobs] the list
    built so far and [im] the image the circles are drawn into. *)
Fixpoint mark_blobs (im : loc) (margin : Q) (w h : Z) (mean var : Q)
    (keypoints : list KeyPoint) (blobs : list Blob) : M (list Blob) :=
  match keypoints with
  | [] => ret blobs
  | kp :: rest =>
    let x := kp_x kp in
    let y := kp_y kp in
    let r := kp_r kp in
    exec emit (PrintBlobCenter x y r);
    if edge_ok margin w h kp then
      let blobs := blobs ++ [mkBlob (pt kp) (size kp)] in
      do color <- (if size_outlier mean var r
                   then exec emit (PrintNonAverage x y r); ret red
                   else ret green);
      exec circle im (x, y) r color;
      mark_blobs im margin w h mean var rest blobs
    else
      exec emit PrintExcluded;
      mark_blobs im margin w h mean var rest blobs
  end.

(** [detect_blobs(image, config)]. *)
Definition detect_blobs (image : loc) (config : Config) : M (list Blob) :=
  let margin := default 10%Q (config !! "blob_margin") in
  let min_area := config !! "blob_min_area" in
  let max_area := default 100000%Q (config !! "blob_max_area") in
  do gray <- cvtColor image COLOR_BGR2GRAY;
  do blurred <- GaussianBlur gray;
  do thresh <- threshold blurred 200 250;
  exec imshow "Thresholded Image" thresh;
  do contours <- findContours thresh;
  exec emit (PrintContours contours);
  let params := blob_params min_area max_area in
  do keypoints <- detect params thresh;
  exec emit (PrintKeypoints (length keypoints));
  do a <- load image;
  let '(h, w) := shape a in
  let radii := radii keypoints in
  let mean_radius := mean_radius radii in
  let var_radius := var_radius radii in
  do im_with_keypoints <- cvtColor thresh COLOR_GRAY2BGR;
  do blobs <- mark_blobs im_with_keypoints margin w h mean_radius var_radius
                keypoints [];
  exec imshow "Blobs" im_with_keypoints;
  ret blobs.

(** Line 112: [avg_size = np.mean([b['size'] for b in blobs]) if blobs else 0]. *)
Definition avg_size (blobs : list Blob) : Q :=
  match blobs with [] => 0%Q | _ => np_mean (map b_size blobs) end.

(** Line 114: [b['size'] > avg_size * 1.5]. *)
Definition large_blob (avg : Q) (b : Blob) : bool :=
  Qltb (avg * (3 # 2)) (b_size b).

(** Lines 113-115. *)
Fixpoint report_large (avg : Q) (blobs : list Blob) : M unit :=
  match blobs with
  | [] => ret tt
  | b :: rest =>
    exec (if large_blob avg b then emit (OperatorLargeBlob b) else ret tt);
    report_large avg rest
  end.

(** Lines 107-115: what [main] does with a frame when SPACE is pressed. *)
Definition scan (frame : loc) (config : Config) : M (list Blob) :=
  let expected_count := default 0%Q (config !! "expected_count") in
  do blobs <- detect_blobs frame config;
  let found_count := length blobs in
  let diff := (expected_count - inject_Z (Z.of_nat found_count))%Q in
  exec emit (OperatorFound found_count expected_count diff);
  let avg_size := avg_size blobs in
  exec report_large avg_size blobs;
  ret blobs.

(** ** What the loop of [detect_blobs] leaves behind

    The list it returns, the lines it prints and the image it draws,
    each as a function of the key points. *)

Definition to_blob (kp : KeyPoint) : Blob := mkBlob (pt kp) (size kp).

Definition kept (margin : Q) (w h : Z) (keypoints : list KeyPoint) : list KeyPoint :=
  List.filter (edge_ok margin w h) keypoints.

Definition kp_events (margin : Q) (w h : Z) (mean var : Q) (kp : KeyPoint)
    : list event :=
  PrintBlobCenter (kp_x kp) (kp_y kp) (kp_r kp) ::
  (if edge_ok margin w h kp then
     if size_outlier mean var (kp_r kp)
     then [PrintNonAverage (kp_x kp) (kp_y kp) (kp_r kp)]
     else []
   else [PrintExcluded]).

Definition loop_events (margin : Q) (w h : Z) (mean var : Q)
    (keypoints : list KeyPoint) : list event :=
  flat_map (kp_events margin w h mean var) keypoints.

Definition circles (margin : Q) (w h : Z) (mean var : Q) (a : ndarray)
    (keypoints : list KeyPoint) : ndarray :=
  fold_left
    (fun a kp =>
       if edge_ok margin w h kp
       then draw_circle a (kp_x kp, kp_y kp) (kp_r kp)
              (if size_outlier mean var (kp_r kp) then red else green)
       else a)
    keypoints a.

(** The lines a call printed: what [w'] has in its log beyond [w]. *)
Definition printed (w w' : world) : list event :=
  skipn (length (log w)) (log w').

Definition is_non_average (e : event) : bool :=
  match e with PrintNonAverage _ _ _ => true | _ => false end.

(** The "Non-average blob detected" lines among those a call printed. *)
Definition flagged (w w' : world) : list event :=
  List.filter is_non_average (printed w w').

(** The key point with its centre and half-size cut to integers. *)
Definition truncated (kp : KeyPoint) : KeyPoint :=
  mkKeyPoint (inject_Z (kp_x kp), inject_Z (kp_y kp))
             (inject_Z (2 * kp_r kp)).

(** The thresholded image and the key points found in it. *)
Definition thresholded (c : list (list (Z * Z * Z))) : ndarray :=
  threshold_binary_inv 200 250 (gaussian_blur (Gray (bgr2gray c))).

Definition keypoints_of (c : list (list (Z * Z * Z))) (config : Config)
    : list KeyPoint :=
  blob_detect
    (blob_params (config !! "blob_min_area")
       (default 100000%Q (config !! "blob_max_area")))
    (thresholded c).

(** ** What one turn of the loop of [wait_for_focus] leaves behind *)

(** The focus measure of a BGR frame. *)
Definition sharpness (c : list (list (Z * Z * Z))) : Q :=
  laplacian_var (Gray (bgr2gray c)).

(** The frame with the status text drawn on it. *)
Definition annotated (threshold : Q) (c : list (list (Z * Z * Z))) : ndarray :=
  let in_focus := Qltb threshold (sharpness c) in
  put_text (Color c) in_focus (sharpness c) (10, 30)
    (if in_focus then green else red).

(** The world once the BGR frame [c] has been read, measured, annotated
    and shown. *)
Definition shown_frame (threshold : Q) (c : list (list (Z * Z * Z)))
    (w : world) : world :=
  let frame := fresh (dom (heap w)) in
  let h1 := <[frame := Color c]> (heap w) in
  let gray := fresh (dom h1) in
  mkWorld
    (<[frame := annotated threshold c]> (<[gray := Gray (bgr2gray c)]> h1))
    (log w ++ [PrintFocus (sharpness c) (Qltb threshold (sharpness c));
               Imshow "Camera Focus" (annotated threshold c)])
    (feed w) (S (cam_pos w)) (keyboard w) (key_pos w).

(** The frame is readable, out of focus. *)
Definition out_of_focus (threshold : Q) (a : option ndarray) : Prop :=
  exists c, a = Some (Color c) /\ Qltb threshold (sharpness c) = false.

(** The next [n] frames are out of focus and ESC is not pressed after
    any of them. *)
Definition idle (threshold : Q) (w : world) (n : nat) : Prop :=
  forall i, (i < n)%nat ->
    out_of_focus threshold (feed w (cam_pos w + i)%nat) /\
    Z.land (keyboard w (key_pos w + i)%nat) 255 <> 27.

End Program.

(** ** Lines of the output, by kind *)

Definition is_excluded (e : event) : bool :=
  match e with PrintExcluded => true | _ => false end.

Definition is_release (e : event) : bool :=
  match e with CameraRelease => true | _ => false end.

Definition is_large_report (e : event) : bool :=
  match e with OperatorLargeBlob _ => true | _ => false end.

Definition is_found_report (e : event) : bool :=
  match e with OperatorFound _ _ _ => true | _ => false end.

(** ** Sums over the sizes *)

(** The squared distance of [x] from [m]. *)
Definition sq_dev (m x : Q) : Q := ((x - m) * (x - m))%Q.

(** The number of elements of a list, as a rational. *)
Definition Qlen {A} (l : list A) : Q := inject_Z (Z.of_nat (length l)).

(** ** The loop of [main]

    [main] prints and closes windows itself, besides what the calls it
    makes print and show: its transcript holds both, in order. *)

Inductive main_line :=
| Output (e : event)
| PrintPressSpace
| OperatorCameraError
| DestroyAllWindows.

Record session := mkSession {
  world_of : world;
  transcript : list main_line
}.

Definition Main (A : Type) : Type := session -> res A * session.

(** A call that runs in the world: what it printed and showed goes to
    the transcript. *)
Definition call {A} (m : M A) : Main A :=
  fun s => let '(r, w') := m (world_of s) in
           (r, mkSession w' (transcript s ++ map Output (printed (world_of s) w'))).

Definition say (l : main_line) : Main unit :=
  fun s => (Ok tt, mkSession (world_of s) (transcript s ++ [l])).

Definition done {A} (a : A) : Main A := fun s => (Ok a, s).

Definition and_then {A B} (m : Main A) (k : A -> Main B) : Main B :=
  fun s => match m s with
           | (Ok a, s') => k a s'
           | (Raise e, s') => (Raise e, s')
           end.

Section MainProgram.
Context `{cv : OpenCV}.

(** Lines 98-115: the [while True] loop of [main], run for at most
    [fuel] iterations.  [true] is a [break]; [false] means the loop is
    still running when the fuel is spent. *)
Fixpoint main_loop (fuel : nat) (config : Config) : Main bool :=
  match fuel with
  | O => done false
  | S fuel' =>
    and_then (call camera_read) (fun r =>
    match r with
    | None => and_then (say OperatorCameraError) (fun _ => done true)
    | Some frame =>
      and_then (call (imshow "Tray View" frame)) (fun _ =>
      and_then (call waitKey) (fun k =>
      let key := Z.land k 255 in
      if key =? 27 then done true
      else if key =? 32 then
        and_then (call (scan frame config)) (fun _ => main_loop fuel' config)
      else main_loop fuel' config))
    end)
  end.

(** [main()], with [config] what [load_tray_config] returned.  The
    result is [true] when [main] has returned. *)
Definition main (fuel : nat) (config : Config) : Main bool :=
  and_then (say PrintPressSpace) (fun _ =>
  and_then (main_loop fuel config) (fun finished =>
  if finished then
    and_then (call (emit CameraRelease)) (fun _ =>
    and_then (say DestroyAllWindows) (fun _ => done true))
  else done false)).

End MainProgram.

(** The lines a run wrote: what [s'] has in its transcript beyond [s]. *)
Definition written (s s' : session) : list main_line :=
  skipn (length (transcript s)) (transcript s').

(** [cap.release()] and [cv2.destroyAllWindows()]. *)
Definition is_closing (l : main_line) : bool :=
  match l with
  | Output CameraRelease | DestroyAllWindows => true
  | _ => false
  end.

Definition is_found_line (l : main_line) : bool :=
  match l with Output (OperatorFound _ _ _) => true | _ => false end.

(** How many of the next [n] keys are SPACE. *)
Definition space_presses (w : world) (n : nat) : nat :=
  length (List.filter (fun i => Z.land (keyboard w i) 255 =? 32)
            (seq (key_pos w) n)).

(** The next [n] frames are delivered, ESC is not pressed after any of
    them, and those after which SPACE is pressed are BGR frames. *)
Definition watching (w : world) (n : nat) : Prop :=
  forall i, (i < n)%nat ->
    exists a, feed w (cam_pos w + i)%nat = Some a /\
      Z.land (keyboard w (key_pos w + i)%nat) 255 <> 27 /\
      (Z.land (keyboard w (key_pos w + i)%nat) 255 = 32 ->
       exists c, a = Color c).

(** The session once the frame [a] has been read and shown and a key
    has been read. *)
Definition tray_shown (a : ndarray) (s : session) : session :=
  let w := world_of s in
  mkSession
    (next_key (add_log (Imshow "Tray View" a)
       (set_heap (insert (fresh (dom (heap w))) a) (next_frame w))))
    (transcript s ++ [Output (Imshow "Tray View" a)]).
(** How a run of the loop of [main] that made [n] full turns ended, and
    what it had read by then. *)
Definition loop_end (w w' : world) (n : nat) (r : res bool) : Prop :=
  match r with
  | Ok true =>
      cam_pos w' = (cam_pos w + S n)%nat /\
      ((feed w (cam_pos w + n)%nat = None /\
        key_pos w' = (key_pos w + n)%nat) \/
       ((exists a, feed w (cam_pos w + n)%nat = Some a) /\
        Z.land (keyboard w (key_pos w + n)%nat) 255 = 27 /\
        key_pos w' = (key_pos w + S n)%nat))
  | Ok false =>
      cam_pos w' = (cam_pos w + n)%nat /\ key_pos w' = (key_pos w + n)%nat
  | Raise e =>
      e = CvError "Invalid number of channels in input image" /\
      (exists g, feed w (cam_pos w + n)%nat = Some (Gray g)) /\
      Z.land (keyboard w (key_pos w + n)%nat) 255 = 32 /\
      cam_pos w' = (cam_pos w + S n)%nat /\
      key_pos w' = (key_pos w + S n)%nat
  end.

(** ** A small OpenCV stand-in, to run the programs on concrete inputs

    The blob detector reports the given key points; the drawing calls
    paint one pixel (the text origin, the circle centre) when it lies
    inside the image; the sharpness measure is the variance of the
    intensities. *)

Module Sample.

Definition paint {A} (v : A) (x y : Z) (rows : list (list A)) : list (list A) :=
  if (0 <=? x) && (0 <=? y)
  then alter (alter (fun _ => v) (Z.to_nat x)) (Z.to_nat y) rows
  else rows.

Definition paint_px (a : ndarray) (p : Z * Z) (color : Z * Z * Z) : ndarray :=
  match a with
  | Gray g => Gray (paint (fst (fst color)) (fst p) (snd p) g)
  | Color c => Color (paint color (fst p) (snd p) c)
  end.

Definition intensities (a : ndarray) : list Q :=
  match a with
  | Gray g => map inject_Z (concat g)
  | Color c => map (fun '(b, g, r) => inject_Z (b + g + r)) (concat c)
  end.

Definition binary_inv (thresh maxval : Q) (v : Z) : Z :=
  if Qltb thresh (inject_Z v) then 0 else py_int maxval.

Definition cv_with (keypoints : list KeyPoint) : OpenCV :=
  {| bgr2gray := map (map (fun '(b, g, r) => (b + g + r) / 3));
     gray2bgr := map (map (fun v => (v, v, v)));
     laplacian_var := fun a => np_var (intensities a);
     gaussian_blur := fun a => a;
     threshold_binary_inv := fun t m a =>
       match a with
       | Gray g => Gray (map (map (binary_inv t m)) g)
       | Color c => Color c
       end;
     count_contours := fun _ => length keypoints;
     blob_detect := fun _ _ => keypoints;
     put_text := fun a _ _ org color => paint_px a org color;
     draw_circle := fun a center _ color => paint_px a center color;
     gaussian_blur_channels := fun a => eq_refl;
     threshold_channels := fun _ _ a =>
       match a with Gray _ => eq_refl | Color _ => eq_refl end |}.

(** A uniform BGR frame of the given size. *)
Definition blank (rows cols : nat) : ndarray :=
  Color (repeat (repeat (200, 200, 200) cols) rows).

(** A frame with one black pixel: sharp for the stand-in measure. *)
Definition sharp (rows cols : nat) : ndarray :=
  paint_px (blank rows cols) (0, 0) (0, 0, 0).

(** A world holding one frame at address 0, with the given camera and
    keyboard. *)
Definition world_with (a : ndarray) (cam : nat -> option ndarray)
    (keys : nat -> Z) : world :=
  mkWorld {[ 0%nat := a ]} [] cam 0 keys 0.

Definition no_camera : nat -> option ndarray := fun _ => None.
Definition no_keys : nat -> Z := fun _ => (-1).

(** Frames, key points and worlds for the runs below. *)
Definition tray : ndarray := blank 64 64.
Definition tray200 : ndarray := blank 200 200.
Definition pixels (rows cols : nat) : list (list (Z * Z * Z)) :=
  repeat (repeat (200, 200, 200) cols) rows.

Definition one_blob : list KeyPoint := [mkKeyPoint (30, 30)%Q 20].

(** Four blobs of radius 10 and one of radius 40 at the centre. *)
Definition five : list KeyPoint :=
  [mkKeyPoint (50, 50)%Q 20; mkKeyPoint (150, 50)%Q 20;
   mkKeyPoint (50, 150)%Q 20; mkKeyPoint (150, 150)%Q 20;
   mkKeyPoint (100, 100)%Q 80].

(** Five blobs of radius 10 and one of radius 40, all inside the frame. *)
Definition six : list KeyPoint :=
  [mkKeyPoint (50, 50)%Q 20; mkKeyPoint (150, 50)%Q 20;
   mkKeyPoint (50, 150)%Q 20; mkKeyPoint (150, 150)%Q 20;
   mkKeyPoint (100, 40)%Q 20; mkKeyPoint (100, 100)%Q 80].

(** The same with one more blob of radius 40 that crosses the left edge. *)
Definition seven : list KeyPoint := six ++ [mkKeyPoint (30, 100)%Q 80].

Definition margin5 : Config := {[ "blob_margin" := 5%Q ]}.

Definition still (a : ndarray) : world := world_with a no_camera no_keys.

(** A camera that delivers the frame [a] at every read. *)
Definition camera_of (a : ndarray) : nat -> option ndarray := fun _ => Some a.
Definition esc_pressed : nat -> Z := fun _ => 27.

End Sample.

(** Sessions of [main] for the runs below. *)
Module SampleSession.
Import Sample.

(** SPACE at the first turn, ESC at every later one. *)
Definition space_then_esc : nat -> Z :=
  fun i => match i with O => 32 | _ => 27 end.

(** A session that starts with an empty transcript. *)
Definition session_with (cam : nat -> option ndarray) (keys : nat -> Z)
    : session :=
  mkSession (world_with tray cam keys) [].

End SampleSession.

(** * Properties *)

(** ** Arithmetic of the model *)

Section Arithmetic.

Lemma Qltb_lt (a b : Q) : Qltb a b = true <-> (a < b)%Q.
Proof.
  unfold Qltb. rewrite negb_true_iff.
  destruct (Qle_bool b a) eqn:E.
  - apply Qle_bool_iff in E. split; [discriminate|].
    intros H. exfalso. apply (Qlt_not_le _ _ H E).
  - split; [intros _|reflexivity].
    apply Qnot_le_lt. intros H. apply Qle_bool_iff in H. congruence.
Qed.

Lemma Qltb_ge (a b : Q) : Qltb a b = false <-> (b <= a)%Q.
Proof.
  unfold Qltb. rewrite negb_false_iff. apply Qle_bool_iff.
Qed.

Lemma py_int_inject_Z (z : Z) : py_int (inject_Z z) = z.
Proof. unfold py_int. cbn. apply Z.quot_1_r. Qed.

Lemma py_int_half_double (r : Z) : py_int (inject_Z (2 * r) / 2) = r.
Proof.
  unfold py_int. cbn [Qdiv Qmult Qinv inject_Z Qnum Qden Z.mul Pos.mul].
  change (Z.pos (1 * 2)) with 2.
  rewrite Z.mul_1_r, (Z.mul_comm 2 r). apply Z.quot_mul. lia.
Qed.

Lemma py_int_mono (a b : Q) : (a <= b)%Q -> py_int a <= py_int b.
Proof.
  unfold Qle, py_int. destruct a as [n1 d1], b as [n2 d2]. cbn. intros H.
  rewrite <- (Z.quot_mul_cancel_r n1 (Z.pos d1) (Z.pos d2)) by lia.
  rewrite <- (Z.quot_mul_cancel_r n2 (Z.pos d2) (Z.pos d1)) by lia.
  rewrite (Z.mul_comm (Z.pos d2) (Z.pos d1)).
  apply Z.quot_le_mono; lia.
Qed.

Lemma Qsquare_nonneg (q : Q) : (0 <= q * q)%Q.
Proof. destruct q as [n d]. unfold Qle. cbn. nia. Qed.

Lemma Qsum_nonneg (l : list Q) :
  (forall x, List.In x l -> (0 <= x)%Q) -> (0 <= Qsum l)%Q.
Proof.
  induction l as [|x l IH]; cbn; intros H.
  - apply Qle_refl.
  - apply (Qplus_le_compat 0 x 0 (Qsum l));
      [apply H; now left | apply IH; intros; apply H; now right].
Qed.

Lemma np_mean_nonneg (l : list Q) :
  (forall x, List.In x l -> (0 <= x)%Q) -> (0 <= np_mean l)%Q.
Proof.
  intros H. unfold np_mean, Qdiv.
  apply Qmult_le_0_compat; [now apply Qsum_nonneg|].
  apply Qinv_le_0_compat. unfold Qle. cbn. lia.
Qed.

Lemma np_var_nonneg (l : list Q) : (0 <= np_var l)%Q.
Proof.
  unfold np_var. apply np_mean_nonneg. intros x Hx.
  apply in_map_iff in Hx as (y & <- & _). apply Qsquare_nonneg.
Qed.

Lemma var_radius_nonneg (rs : list Q) : (0 <= var_radius rs)%Q.
Proof.
  destruct rs; cbn [var_radius]; [apply Qle_refl | apply np_var_nonneg].
Qed.

Lemma Qsum_const (l : list Q) (c : Q) :
  (forall x, List.In x l -> x == c) ->
  Qsum l == inject_Z (Z.of_nat (length l)) * c.
Proof.
  induction l as [|x l IH]; intros H.
  - cbn. ring.
  - cbn [Qsum fold_right length]. fold (Qsum l).
    rewrite Nat2Z.inj_succ. unfold Z.succ. rewrite inject_Z_plus.
    rewrite (H x) by now left.
    rewrite IH by (intros; apply H; now right). ring.
Qed.

Lemma np_mean_const (l : list Q) (c : Q) :
  l <> [] -> (forall x, List.In x l -> x == c) -> np_mean l == c.
Proof.
  intros Hl H. unfold np_mean. rewrite (Qsum_const l c H).
  field. destruct l as [|x l]; [congruence|].
  cbn [length]. unfold Qeq. cbn. lia.
Qed.

(** Identical values have variance zero. *)
Lemma np_var_const (l : list Q) (c : Q) :
  (forall x, List.In x l -> x == c) -> np_var l == 0.
Proof.
  intros H. unfold np_var.
  set (m := np_mean l).
  assert (Hm : l <> [] -> m == c) by (intros; now apply np_mean_const).
  unfold np_mean at 1.
  rewrite (Qsum_const _ 0).
  - unfold Qdiv. ring.
  - intros y Hy. apply in_map_iff in Hy as (x & <- & Hx).
    rewrite (H x Hx), Hm by (intros ->; inversion Hx). ring.
Qed.

(** The comparison on squares is the comparison with the square root. *)
Lemma sqrt_comparison (v d : R) :
  (0 <= v)%R ->
  (0 < v /\ 4 * v < d * d)%R <-> (sqrt v > 0 /\ Rabs d > 2 * sqrt v)%R.
Proof.
  intros Hv.
  pose proof (sqrt_pos v) as Hs.
  pose proof (sqrt_sqrt v Hv) as Hss.
  pose proof (Rabs_pos d) as Ha.
  assert (Haa : (Rabs d * Rabs d = d * d)%R).
  { pose proof (Rsqr_abs d) as E. unfold Rsqr in E. now rewrite <- E. }
  set (s := sqrt v) in *. set (a := Rabs d) in *.
  rewrite <- Haa, <- Hss. split; intros [H1 H2]; split; nra.
Qed.

End Arithmetic.

(** ** Running the monad *)

Section Running.
Context `{cv : OpenCV}.

Lemma world_eta (w : world) :
  mkWorld (heap w) (log w) (feed w) (cam_pos w) (keyboard w) (key_pos w) = w.
Proof. now destruct w. Qed.

Lemma bind_ok {A B} (m : M A) (k : A -> M B) (w w' : world) (a : A) :
  m w = (Ok a, w') -> bind m k w = k a w'.
Proof. unfold bind. now intros ->. Qed.

Lemma bind_raise {A B} (m : M A) (k : A -> M B) (w w' : world) (e : exn) :
  m w = (Raise e, w') -> bind m k w = (Raise e, w').
Proof. unfold bind. now intros ->. Qed.

Lemma load_ok (l : loc) (a : ndarray) (w : world) :
  heap w !! l = Some a -> load l w = (Ok a, w).
Proof. unfold load. now intros ->. Qed.

Lemma store_ok (l : loc) (a b : ndarray) (w : world) :
  heap w !! l = Some a -> store l b w = (Ok tt, set_heap (insert l b) w).
Proof. unfold store. now intros ->. Qed.

(** An address handed out by [alloc] is not one already in use. *)
Lemma fresh_unused (h : gmap loc ndarray) : h !! fresh (dom h) = None.
Proof. apply not_elem_of_dom, is_fresh. Qed.

Lemma alloc_keeps (h : gmap loc ndarray) (l : loc) (a b : ndarray) :
  h !! l = Some a -> <[fresh (dom h) := b]> h !! l = Some a.
Proof.
  intros H. rewrite lookup_insert_ne; [done|].
  intros E. rewrite <- E, fresh_unused in H. discriminate.
Qed.

Lemma mark_blobs_run (im : loc) (margin : Q) (W H : Z) (mean var : Q)
    (keypoints : list KeyPoint) :
  forall (blobs : list Blob) (w : world) (a : ndarray),
    heap w !! im = Some a ->
    mark_blobs im margin W H mean var keypoints blobs w =
    (Ok (blobs ++ map to_blob (kept margin W H keypoints)),
     mkWorld (<[im := circles margin W H mean var a keypoints]> (heap w))
       (log w ++ loop_events margin W H mean var keypoints)
       (feed w) (cam_pos w) (keyboard w) (key_pos w)).
Proof.
  induction keypoints as [|kp rest IH]; intros blobs w a Ha.
  - cbn. rewrite !app_nil_r, insert_id by done. now rewrite world_eta.
  - cbn [mark_blobs kept List.filter loop_events flat_map kp_events circles fold_left].
    unfold bind at 1, emit at 1.
    destruct (edge_ok margin W H kp) eqn:Hedge.
    + assert (Hstep : forall color w0,
                heap w0 !! im = Some a ->
                (exec circle im (kp_x kp, kp_y kp) (kp_r kp) color;
                 mark_blobs im margin W H mean var rest
                   (blobs ++ [{| b_pt := pt kp; b_size := size kp |}])) w0 =
                (Ok (blobs ++ to_blob kp :: map to_blob (kept margin W H rest)),
                 mkWorld
                   (<[im := circles margin W H mean var
                              (draw_circle a (kp_x kp, kp_y kp) (kp_r kp) color) rest]>
                      (heap w0))
                   (log w0 ++ loop_events margin W H mean var rest)
                   (feed w0) (cam_pos w0) (keyboard w0) (key_pos w0))).
      { intros color w0 H0. unfold circle.
        rewrite (bind_ok _ _ w0 (set_heap (insert im
                   (draw_circle a (kp_x kp, kp_y kp) (kp_r kp) color)) w0) tt).
        - rewrite (IH _ _ (draw_circle a (kp_x kp, kp_y kp) (kp_r kp) color))
            by (cbn; apply lookup_insert_eq).
          cbn. rewrite insert_insert_eq, <- app_assoc. reflexivity.
        - rewrite (bind_ok _ _ w0 w0 a) by now apply load_ok.
          now apply (store_ok im a). }
      destruct (size_outlier mean var (kp_r kp)) eqn:Hout.
      * unfold bind at 1. unfold bind at 1. unfold emit, ret.
        rewrite Hstep by (cbn; exact Ha). cbn.
        rewrite ?Hedge, ?Hout, <- ?app_assoc. reflexivity.
      * unfold bind at 1. unfold ret at 1.
        rewrite Hstep by (cbn; exact Ha). cbn.
        rewrite ?Hedge, ?Hout, <- ?app_assoc. reflexivity.
    + unfold bind at 1, emit at 1.
      rewrite (IH _ _ a) by (cbn; exact Ha). cbn.
      rewrite ?Hedge, <- ?app_assoc. reflexivity.
Qed.

Lemma cvtColor_gray_ok (src : loc) (c : list (list (Z * Z * Z))) (w : world) :
  heap w !! src = Some (Color c) ->
  cvtColor src COLOR_BGR2GRAY w =
  (Ok (fresh (dom (heap w))),
   set_heap (insert (fresh (dom (heap w))) (Gray (bgr2gray c))) w).
Proof. intros H. unfold cvtColor. now rewrite (bind_ok _ _ w w _ (load_ok _ _ _ H)). Qed.

Lemma cvtColor_bgr_ok (src : loc) (g : list (list Z)) (w : world) :
  heap w !! src = Some (Gray g) ->
  cvtColor src COLOR_GRAY2BGR w =
  (Ok (fresh (dom (heap w))),
   set_heap (insert (fresh (dom (heap w))) (Color (gray2bgr g))) w).
Proof. intros H. unfold cvtColor. now rewrite (bind_ok _ _ w w _ (load_ok _ _ _ H)). Qed.

Lemma cvtColor_gray_rejects (src : loc) (g : list (list Z)) (w : world) :
  heap w !! src = Some (Gray g) ->
  cvtColor src COLOR_BGR2GRAY w =
  (Raise (CvError "Invalid number of channels in input image"), w).
Proof. intros H. unfold cvtColor. now rewrite (bind_ok _ _ w w _ (load_ok _ _ _ H)). Qed.

Lemma GaussianBlur_ok (src : loc) (a : ndarray) (w : world) :
  heap w !! src = Some a ->
  GaussianBlur src w =
  (Ok (fresh (dom (heap w))),
   set_heap (insert (fresh (dom (heap w))) (gaussian_blur a)) w).
Proof. intros H. unfold GaussianBlur. now rewrite (bind_ok _ _ w w _ (load_ok _ _ _ H)). Qed.

Lemma threshold_ok (src : loc) (t m : Q) (a : ndarray) (w : world) :
  heap w !! src = Some a ->
  threshold src t m w =
  (Ok (fresh (dom (heap w))),
   set_heap (insert (fresh (dom (heap w))) (threshold_binary_inv t m a)) w).
Proof. intros H. unfold threshold. now rewrite (bind_ok _ _ w w _ (load_ok _ _ _ H)). Qed.

Lemma imshow_ok (name : string) (src : loc) (a : ndarray) (w : world) :
  heap w !! src = Some a ->
  imshow name src w = (Ok tt, add_log (Imshow name a) w).
Proof. intros H. unfold imshow. now rewrite (bind_ok _ _ w w _ (load_ok _ _ _ H)). Qed.

Lemma findContours_ok (src : loc) (a : ndarray) (w : world) :
  heap w !! src = Some a -> findContours src w = (Ok (count_contours a), w).
Proof. intros H. unfold findContours. now rewrite (bind_ok _ _ w w _ (load_ok _ _ _ H)). Qed.

Lemma detect_ok (params : Params) (src : loc) (a : ndarray) (w : world) :
  heap w !! src = Some a -> detect params src w = (Ok (blob_detect params a), w).
Proof. intros H. unfold detect. now rewrite (bind_ok _ _ w w _ (load_ok _ _ _ H)). Qed.

Lemma thresholded_gray (c : list (list (Z * Z * Z))) :
  exists g, thresholded c = Gray g.
Proof.
  unfold thresholded.
  pose proof (threshold_channels 200 250 (gaussian_blur (Gray (bgr2gray c)))) as E.
  rewrite gaussian_blur_channels in E.
  destruct (threshold_binary_inv _ _ _) as [g|c']; [now exists g | discriminate].
Qed.

Lemma detect_blobs_run (image : loc) (config : Config) (w : world)
    (c : list (list (Z * Z * Z))) :
  heap w !! image = Some (Color c) ->
  let margin := default 10%Q (config !! "blob_margin") in
  let H := fst (shape (Color c)) in
  let W := snd (shape (Color c)) in
  let kps := keypoints_of c config in
  let mean := mean_radius (radii kps) in
  let var := var_radius (radii kps) in
  exists (g : list (list Z)) (w' : world),
    thresholded c = Gray g /\
    detect_blobs image config w = (Ok (map to_blob (kept margin W H kps)), w') /\
    (forall l a, heap w !! l = Some a -> heap w' !! l = Some a) /\
    log w' =
      log w ++
      [Imshow "Thresholded Image" (Gray g);
       PrintContours (count_contours (Gray g));
       PrintKeypoints (length kps)] ++
      loop_events margin W H mean var kps ++
      [Imshow "Blobs" (circles margin W H mean var (Color (gray2bgr g)) kps)] /\
    (feed w' = feed w /\ cam_pos w' = cam_pos w /\
     keyboard w' = keyboard w /\ key_pos w' = key_pos w).
Proof.
  intros Hc margin H W kps mean var.
  destruct (thresholded_gray c) as [g Hg]. exists g.
  unfold detect_blobs.
  rewrite (bind_ok _ _ _ _ _ (cvtColor_gray_ok _ _ _ Hc)).
  set (l1 := fresh (dom (heap w))).
  set (w1 := set_heap (insert l1 (Gray (bgr2gray c))) w).
  assert (H1 : heap w1 !! l1 = Some (Gray (bgr2gray c))) by apply lookup_insert_eq.
  rewrite (bind_ok _ _ _ _ _ (GaussianBlur_ok _ _ _ H1)).
  set (l2 := fresh (dom (heap w1))).
  set (w2 := set_heap (insert l2 _) w1).
  assert (H2 : heap w2 !! l2 = Some (gaussian_blur (Gray (bgr2gray c)))) by apply lookup_insert_eq.
  rewrite (bind_ok _ _ _ _ _ (threshold_ok _ 200 250 _ _ H2)).
  fold (thresholded c). rewrite Hg.
  set (l3 := fresh (dom (heap w2))).
  set (w3 := set_heap (insert l3 _) w2).
  assert (H3 : heap w3 !! l3 = Some (Gray g)) by apply lookup_insert_eq.
  rewrite (bind_ok _ _ _ _ _ (imshow_ok _ _ _ _ H3)).
  set (w4 := add_log _ w3).
  assert (H4 : heap w4 !! l3 = Some (Gray g)) by exact H3.
  rewrite (bind_ok _ _ _ _ _ (findContours_ok _ _ _ H4)).
  unfold bind at 1, emit at 1.
  set (w5 := add_log _ w4).
  assert (H5 : heap w5 !! l3 = Some (Gray g)) by exact H3.
  rewrite (bind_ok _ _ _ _ _ (detect_ok _ _ _ _ H5)).
  unfold bind at 1, emit at 1.
  set (w6 := add_log _ w5).
  assert (Himg : heap w6 !! image = Some (Color c)).
  { cbn. do 3 apply alloc_keeps. exact Hc. }
  rewrite (bind_ok _ _ _ _ _ (load_ok _ _ _ Himg)).
  cbn [shape].
  assert (H6 : heap w6 !! l3 = Some (Gray g)) by exact H3.
  rewrite (bind_ok _ _ _ _ _ (cvtColor_bgr_ok _ _ _ H6)).
  set (l4 := fresh (dom (heap w6))).
  set (w7 := set_heap (insert l4 _) w6).
  assert (H7 : heap w7 !! l4 = Some (Color (gray2bgr g))) by apply lookup_insert_eq.
  assert (Hk : kps = blob_detect
            (blob_params (config !! "blob_min_area")
               (default 100000%Q (config !! "blob_max_area"))) (Gray g)).
  { subst kps. unfold keypoints_of. now rewrite Hg. }
  rewrite <- Hk.
  rewrite (bind_ok _ _ _ _ _
             (mark_blobs_run l4 _ _ _ _ _ kps [] w7 _ H7)).
  match goal with |- context [bind (imshow _ _) _ ?w0] => set (w8 := w0) end.
  assert (H8 : heap w8 !! l4 =
               Some (circles margin W H mean var (Color (gray2bgr g)) kps))
    by apply lookup_insert_eq.
  rewrite (bind_ok _ _ _ _ _ (imshow_ok _ _ _ _ H8)).
  eexists. split; [reflexivity|]. split; [reflexivity|].
  split; [|split].
  - intros l a Hl. cbn. rewrite insert_insert_eq.
    do 4 apply alloc_keeps. exact Hl.
  - cbn. rewrite <- Hk, <- !app_assoc. reflexivity.
  - cbn. auto.
Qed.
Lemma Laplacian_var_ok (src : loc) (a : ndarray) (w : world) :
  heap w !! src = Some a -> Laplacian_var src w = (Ok (laplacian_var a), w).
Proof. intros H. unfold Laplacian_var. now rewrite (bind_ok _ _ w w _ (load_ok _ _ _ H)). Qed.

Lemma is_camera_in_focus_color (image : loc) (threshold : Q) (w : world)
    (c : list (list (Z * Z * Z))) :
  heap w !! image = Some (Color c) ->
  is_camera_in_focus image threshold w =
  (Ok (Qltb threshold (sharpness c), sharpness c),
   set_heap (insert (fresh (dom (heap w))) (Gray (bgr2gray c))) w).
Proof.
  intros Hc. unfold is_camera_in_focus.
  rewrite (bind_ok _ _ _ _ _ (cvtColor_gray_ok _ _ _ Hc)).
  set (w1 := set_heap _ w).
  assert (H1 : heap w1 !! fresh (dom (heap w)) = Some (Gray (bgr2gray c)))
    by apply lookup_insert_eq.
  now rewrite (bind_ok _ _ _ _ _ (Laplacian_var_ok _ _ _ H1)).
Qed.

Lemma is_camera_in_focus_gray (image : loc) (threshold : Q) (w : world)
    (g : list (list Z)) :
  heap w !! image = Some (Gray g) ->
  is_camera_in_focus image threshold w =
  (Raise (CvError "Invalid number of channels in input image"), w).
Proof.
  intros Hg. unfold is_camera_in_focus.
  now rewrite (bind_raise _ _ _ _ _ (cvtColor_gray_rejects _ _ _ Hg)).
Qed.

Lemma is_camera_in_focus_dangling (image : loc) (threshold : Q) (w : world) :
  heap w !! image = None ->
  is_camera_in_focus image threshold w = (Raise (Dangling image), w).
Proof.
  intros Hn. unfold is_camera_in_focus, cvtColor, bind, load. now rewrite Hn.
Qed.

Lemma camera_read_frame (w : world) (a : ndarray) :
  feed w (cam_pos w) = Some a ->
  camera_read w =
  (Ok (Some (fresh (dom (heap w)))),
   set_heap (insert (fresh (dom (heap w))) a) (next_frame w)).
Proof. unfold camera_read. now intros ->. Qed.

Lemma camera_read_none (w : world) :
  feed w (cam_pos w) = None -> camera_read w = (Ok None, next_frame w).
Proof. unfold camera_read. now intros ->. Qed.

(** One turn of the loop on a BGR frame. *)
Lemma wait_for_focus_turn (fuel : nat) (threshold : Q) (w : world)
    (c : list (list (Z * Z * Z))) :
  feed w (cam_pos w) = Some (Color c) ->
  wait_for_focus (S fuel) threshold w =
  if Qltb threshold (sharpness c) then
    (Ok (Some (Some (fresh (dom (heap w))))),
     add_log (DestroyWindow "Camera Focus")
       (add_log CameraRelease (shown_frame threshold c w)))
  else if Z.land (keyboard w (key_pos w)) 255 =? 27 then
    (Ok (Some None),
     add_log (DestroyWindow "Camera Focus")
       (add_log CameraRelease (next_key (shown_frame threshold c w))))
  else wait_for_focus fuel threshold (next_key (shown_frame threshold c w)).
Proof.
  intros Hf. cbn [wait_for_focus].
  rewrite (bind_ok _ _ _ _ _ (camera_read_frame _ _ Hf)).
  set (l := fresh (dom (heap w))).
  set (w1 := set_heap (insert l (Color c)) (next_frame w)).
  assert (H1 : heap w1 !! l = Some (Color c)) by apply lookup_insert_eq.
  rewrite (bind_ok _ _ _ _ _ (is_camera_in_focus_color _ threshold _ _ H1)).
  unfold bind at 1, emit at 1.
  set (w2 := add_log _ _).
  assert (H2 : heap w2 !! l = Some (Color c)).
  { cbn. apply alloc_keeps. apply lookup_insert_eq. }
  unfold putText.
  rewrite (bind_ok _ _ w2
             (set_heap (insert l (annotated threshold c)) w2) tt).
  2:{ rewrite (bind_ok _ _ _ _ _ (load_ok _ _ _ H2)).
      apply (store_ok l (Color c)). exact H2. }
  set (w3 := set_heap _ w2).
  assert (H3 : heap w3 !! l = Some (annotated threshold c)) by apply lookup_insert_eq.
  rewrite (bind_ok _ _ _ _ _ (imshow_ok _ _ _ _ H3)).
  assert (E : add_log (Imshow "Camera Focus" (annotated threshold c)) w3
              = shown_frame threshold c w).
  { subst w3 w2 w1 l. unfold shown_frame, add_log, set_heap, next_frame. cbn.
    rewrite <- app_assoc. reflexivity. }
  rewrite E.
  destruct (Qltb threshold (sharpness c)); [reflexivity|].
  unfold bind at 1, waitKey at 1.
  change (keyboard (shown_frame threshold c w)) with (keyboard w).
  change (key_pos (shown_frame threshold c w)) with (key_pos w).
  destruct (Z.land (keyboard w (key_pos w)) 255 =? 27); reflexivity.
Qed.

Lemma shown_frame_keeps (threshold : Q) (c : list (list (Z * Z * Z)))
    (w : world) (l : loc) (a : ndarray) :
  heap w !! l = Some a -> heap (shown_frame threshold c w) !! l = Some a.
Proof.
  intros H. cbn.
  assert (Hne : fresh (dom (heap w)) <> l).
  { intros E. rewrite <- E, fresh_unused in H. discriminate. }
  rewrite lookup_insert_ne by exact Hne.
  apply alloc_keeps. now rewrite lookup_insert_ne.
Qed.

(** Out-of-focus frames without ESC only use up turns. *)
Lemma wait_for_focus_idle (threshold : Q) (n : nat) :
  forall w : world,
    idle threshold w n ->
    exists w' : world,
      (forall fuel, wait_for_focus (n + fuel) threshold w =
                    wait_for_focus fuel threshold w') /\
      feed w' = feed w /\ keyboard w' = keyboard w /\
      cam_pos w' = (cam_pos w + n)%nat /\ key_pos w' = (key_pos w + n)%nat /\
      (forall l a, heap w !! l = Some a -> heap w' !! l = Some a).
Proof.
  induction n as [|n IH]; intros w Hidle.
  - exists w. rewrite !Nat.add_0_r. repeat split; auto.
  - destruct (Hidle 0%nat ltac:(lia)) as [(c & Hc & Hs) Hk].
    rewrite Nat.add_0_r in Hc, Hk.
    set (w1 := next_key (shown_frame threshold c w)).
    destruct (IH w1) as (w' & Hrun & Hfeed & Hkeys & Hcam & Hkey & Hheap).
    { intros i Hi. specialize (Hidle (S i) ltac:(lia)).
      cbn. now rewrite <- !Nat.add_succ_comm in Hidle. }
    exists w'. repeat split.
    + intros fuel. cbn [Nat.add].
      rewrite (wait_for_focus_turn _ _ _ _ Hc), Hs.
      apply Z.eqb_neq in Hk. rewrite Hk. apply Hrun.
    + exact Hfeed.
    + exact Hkeys.
    + rewrite Hcam. cbn. lia.
    + rewrite Hkey. cbn. lia.
    + intros l a Hl. apply Hheap. cbn. now apply shown_frame_keeps.
Qed.

End Running.

(** ** The loop of [detect_blobs] *)

Section Loop.
Context `{cv : OpenCV}.

Lemma skipn_length_app {A} (l k : list A) : skipn (length l) (l ++ k) = k.
Proof. induction l; [reflexivity | assumption]. Qed.

Lemma Q2R_inject_Z (z : Z) : Q2R (inject_Z z) = IZR z.
Proof. unfold Q2R. cbn. lra. Qed.

(** The executable test is line 76 as written with the square root. *)
Lemma far_from_mean_sqrt (mean var q : Q) :
  (0 <= var)%Q ->
  Qltb 0 var && Qltb (4 * var) ((q - mean) * (q - mean)) = true <->
  non_average (Q2R mean) (sqrt (Q2R var)) (Q2R q).
Proof.
  intros Hv. unfold non_average.
  rewrite andb_true_iff, !Qltb_lt.
  assert (Hv' : (0 <= Q2R var)%R).
  { apply Qle_Rle in Hv. now rewrite RMicromega.Q2R_0 in Hv. }
  rewrite <- (sqrt_comparison (Q2R var) (Q2R q - Q2R mean) Hv').
  assert (H4 : Q2R 4 = 4%R) by (unfold Q2R; cbn; lra).
  split; intros [H1 H2]; split.
  - apply Qlt_Rlt in H1. now rewrite RMicromega.Q2R_0 in H1.
  - apply Qlt_Rlt in H2. now rewrite !Q2R_mult, Q2R_minus, H4 in H2.
  - apply Rlt_Qlt. now rewrite RMicromega.Q2R_0.
  - apply Rlt_Qlt. now rewrite !Q2R_mult, Q2R_minus, H4.
Qed.

Lemma size_outlier_sqrt (rs : list Q) (r : Z) :
  size_outlier (mean_radius rs) (var_radius rs) r = true <->
  non_average (Q2R (mean_radius rs)) (std_radius rs) (IZR r).
Proof.
  unfold size_outlier, std_radius. cbn zeta.
  rewrite (far_from_mean_sqrt _ _ (inject_Z r) (var_radius_nonneg rs)).
  now rewrite Q2R_inject_Z.
Qed.

Lemma non_average_in (margin : Q) (W H : Z) (mean var : Q)
    (keypoints : list KeyPoint) (x y r : Z) :
  List.In (PrintNonAverage x y r) (loop_events margin W H mean var keypoints) <->
  exists kp, List.In kp keypoints /\ edge_ok margin W H kp = true /\
             size_outlier mean var (kp_r kp) = true /\
             kp_x kp = x /\ kp_y kp = y /\ kp_r kp = r.
Proof.
  unfold loop_events. rewrite in_flat_map. split.
  - intros (kp & Hin & He). exists kp. split; [exact Hin|].
    unfold kp_events in He. destruct He as [He|He]; [discriminate|].
    destruct (edge_ok margin W H kp); [|destruct He as [He|[]]; discriminate].
    destruct (size_outlier mean var (kp_r kp)); [|destruct He].
    destruct He as [He|[]]. inversion He. auto.
  - intros (kp & Hin & He & Ho & <- & <- & <-). exists kp. split; [exact Hin|].
    unfold kp_events. rewrite He, Ho. right. now left.
Qed.

Lemma no_flag_lines (margin : Q) (W H : Z) (mean var : Q)
    (keypoints : list KeyPoint) :
  (forall kp, List.In kp keypoints -> edge_ok margin W H kp = true ->
              size_outlier mean var (kp_r kp) = false) ->
  List.filter is_non_average (loop_events margin W H mean var keypoints) = [].
Proof.
  induction keypoints as [|kp rest IH]; intros Hno; [reflexivity|].
  cbn [loop_events flat_map]. rewrite List.filter_app.
  fold (loop_events margin W H mean var rest).
  rewrite IH by (intros; apply Hno; [now right | assumption]).
  rewrite app_nil_r. unfold kp_events. cbn.
  destruct (edge_ok margin W H kp) eqn:He; [|reflexivity].
  now rewrite (Hno kp (or_introl eq_refl) He).
Qed.

(** What a successful call of [detect_blobs] on a BGR image returned,
    printed and left in memory. *)
Lemma detect_blobs_inv (image : loc) (config : Config) (w w' : world)
    (c : list (list (Z * Z * Z))) (blobs : list Blob) :
  heap w !! image = Some (Color c) ->
  detect_blobs image config w = (Ok blobs, w') ->
  let margin := default 10%Q (config !! "blob_margin") in
  let H := fst (shape (Color c)) in
  let W := snd (shape (Color c)) in
  let kps := keypoints_of c config in
  let mean := mean_radius (radii kps) in
  let var := var_radius (radii kps) in
  blobs = map to_blob (kept margin W H kps) /\
  (exists g,
     printed w w' =
       [Imshow "Thresholded Image" (Gray g);
        PrintContours (count_contours (Gray g));
        PrintKeypoints (length kps)] ++
       loop_events margin W H mean var kps ++
       [Imshow "Blobs" (circles margin W H mean var (Color (gray2bgr g)) kps)]) /\
  flagged w w' = List.filter is_non_average (loop_events margin W H mean var kps) /\
  (forall l a, heap w !! l = Some a -> heap w' !! l = Some a).
Proof.
  intros Hc Hrun margin H W kps mean var.
  destruct (detect_blobs_run image config w c Hc)
    as (g & w1 & _ & Hrun1 & Hkeep & Hlog & _).
  rewrite Hrun in Hrun1. inversion Hrun1; subst blobs w1.
  assert (Hp : printed w w' =
       [Imshow "Thresholded Image" (Gray g);
        PrintContours (count_contours (Gray g));
        PrintKeypoints (length kps)] ++
       loop_events margin W H mean var kps ++
       [Imshow "Blobs" (circles margin W H mean var (Color (gray2bgr g)) kps)]).
  { unfold printed. rewrite Hlog. apply skipn_length_app. }
  split; [reflexivity|]. split; [now exists g|]. split; [|exact Hkeep].
  unfold flagged. rewrite Hp. cbn [app List.filter is_non_average].
  rewrite List.filter_app. cbn. now rewrite app_nil_r.
Qed.

End Loop.

(** ** The edge filter *)

Section EdgeFilter.
Context `{cv : OpenCV}.

Lemma edge_ok_strict (margin : Q) (W H : Z) (kp : KeyPoint) :
  edge_ok margin W H kp = true <->
  (margin < inject_Z (kp_x kp - kp_r kp) /\
   inject_Z (kp_x kp + kp_r kp) < inject_Z W - margin /\
   margin < inject_Z (kp_y kp - kp_r kp) /\
   inject_Z (kp_y kp + kp_r kp) < inject_Z H - margin)%Q.
Proof.
  unfold edge_ok. cbn zeta. rewrite !andb_true_iff, !Qltb_lt. tauto.
Qed.

Lemma returned_blob_origin (margin : Q) (W H : Z) (kps : list KeyPoint) (b : Blob) :
  List.In b (map to_blob (kept margin W H kps)) ->
  exists kp, List.In kp kps /\ edge_ok margin W H kp = true /\
             pt kp = b_pt b /\ size kp = b_size b.
Proof.
  intros Hb. apply in_map_iff in Hb as (kp & <- & Hk).
  apply filter_In in Hk as [Hin He]. now exists kp.
Qed.


End EdgeFilter.


(** ** The size-outlier test *)

Section Outliers.
Context `{cv : OpenCV}.

(** The "Non-average" lines of a call are those of its loop. *)
Lemma non_average_printed (image : loc) (config : Config) (w w' : world)
    (c : list (list (Z * Z * Z))) (blobs : list Blob) (x y r : Z) :
  heap w !! image = Some (Color c) ->
  detect_blobs image config w = (Ok blobs, w') ->
  let margin := default 10%Q (config !! "blob_margin") in
  let H := fst (shape (Color c)) in
  let W := snd (shape (Color c)) in
  let kps := keypoints_of c config in
  List.In (PrintNonAverage x y r) (printed w w') <->
  exists kp, List.In kp kps /\ edge_ok margin W H kp = true /\
             size_outlier (mean_radius (radii kps)) (var_radius (radii kps))
               (kp_r kp) = true /\
             kp_x kp = x /\ kp_y kp = y /\ kp_r kp = r.
Proof.
  intros Hc Hrun margin H W kps.
  destruct (detect_blobs_inv image config w w' c blobs Hc Hrun)
    as (_ & (g & Hp) & _).
  rewrite Hp, <- non_average_in.
  rewrite !in_app_iff. cbn [List.In]. split.
  - intros [[E|[E|[E|[]]]]|[E|[E|[]]]]; try discriminate. exact E.
  - intros E. right. now left.
Qed.

Lemma radii_const (kps : list KeyPoint) (s : Q) :
  (forall kp, List.In kp kps -> size kp == s) ->
  forall x, List.In x (radii kps) -> x == s / 2.
Proof.
  intros Hs x Hx. apply in_map_iff in Hx as (kp & <- & Hk).
  now rewrite (Hs kp Hk).
Qed.

Lemma var_radius_const (kps : list KeyPoint) :
  (forall kp kp', List.In kp kps -> List.In kp' kps -> size kp == size kp') ->
  var_radius (radii kps) == 0.
Proof.
  intros Hs. destruct kps as [|k0 rest]; [reflexivity|].
  change (var_radius (radii (k0 :: rest))) with (np_var (radii (k0 :: rest))).
  apply (np_var_const _ (size k0 / 2)).
  apply radii_const. intros kp Hk. apply Hs; [exact Hk | now left].
Qed.

Lemma size_outlier_zero_var (mean var : Q) (r : Z) :
  var == 0 -> size_outlier mean var r = false.
Proof.
  intros Hv. unfold size_outlier. cbn zeta.
  replace (Qltb 0 var) with false; [reflexivity|].
  symmetry. apply Qltb_ge. rewrite Hv. apply Qle_refl.
Qed.


End Outliers.

(** ** What [detect_blobs] returns and which statistics it uses *)

Section Returned.
Context `{cv : OpenCV}.

(** C1, as the code has it: the mean and the standard deviation used for
    flagging are those of the half-sizes of all detected key points, the
    ones the edge test rejects included; a key point that passes the edge
    test is reported exactly when it is far from that mean. *)
Theorem statistics_over_all_keypoints (image : loc) (config : Config)
    (w w' : world) (c : list (list (Z * Z * Z))) (blobs : list Blob) :
  heap w !! image = Some (Color c) ->
  detect_blobs image config w = (Ok blobs, w') ->
  let margin := default 10%Q (config !! "blob_margin") in
  let H := fst (shape (Color c)) in
  let W := snd (shape (Color c)) in
  let kps := keypoints_of c config in
  let all_radii := map (fun kp => size kp / 2)%Q kps in
  flagged w w' =
    List.filter is_non_average
      (loop_events margin W H (mean_radius all_radii) (var_radius all_radii) kps) /\
  forall kp, List.In kp kps -> edge_ok margin W H kp = true ->
    (List.In (PrintNonAverage (kp_x kp) (kp_y kp) (kp_r kp)) (printed w w') <->
     size_outlier (mean_radius all_radii) (var_radius all_radii) (kp_r kp) = true).
Proof.
  intros Hc Hrun margin H W kps all_radii.
  destruct (detect_blobs_inv image config w w' c blobs Hc Hrun)
    as (_ & _ & Hf & _).
  split; [exact Hf|].
  intros kp Hin He.
  rewrite (non_average_printed image config w w' c blobs _ _ _ Hc Hrun).
  fold kps. split.
  - intros (kp' & _ & _ & Ho & _ & _ & Hr). now rewrite <- Hr.
  - intros Ho. exists kp. repeat split; assumption.
Qed.

Lemma report_large_run (avg : Q) (blobs : list Blob) :
  forall w : world,
    report_large avg blobs w =
    (Ok tt,
     mkWorld (heap w)
       (log w ++ map OperatorLargeBlob (List.filter (large_blob avg) blobs))
       (feed w) (cam_pos w) (keyboard w) (key_pos w)).
Proof.
  induction blobs as [|b rest IH]; intros w.
  - cbn. now rewrite app_nil_r, world_eta.
  - cbn [report_large List.filter]. unfold bind at 1.
    destruct (large_blob avg b).
    + unfold emit at 1. rewrite IH. cbn. now rewrite <- app_assoc.
    + unfold ret at 1. apply IH.
Qed.

(** What [main] prints after [detect_blobs] has returned. *)
Lemma scan_inv (frame : loc) (config : Config) (w w' : world)
    (c : list (list (Z * Z * Z))) (blobs : list Blob) :
  heap w !! frame = Some (Color c) ->
  scan frame config w = (Ok blobs, w') ->
  let expected := default 0%Q (config !! "expected_count") in
  exists w1,
    detect_blobs frame config w = (Ok blobs, w1) /\
    printed w1 w' =
      OperatorFound (length blobs) expected
        (expected - inject_Z (Z.of_nat (length blobs))) ::
      map OperatorLargeBlob (List.filter (large_blob (avg_size blobs)) blobs).
Proof.
  intros Hc Hscan expected.
  destruct (detect_blobs_run frame config w c Hc)
    as (g & w1 & _ & Hrun & _).
  unfold scan in Hscan. rewrite (bind_ok _ _ _ _ _ Hrun) in Hscan.
  unfold bind at 1, emit at 1 in Hscan.
  rewrite (bind_ok _ _ _ _ _ (report_large_run _ _ _)) in Hscan.
  unfold ret in Hscan. inversion Hscan; subst blobs w'.
  exists w1. split; [exact Hrun|].
  unfold printed. cbn [log add_log]. rewrite <- app_assoc.
  apply skipn_length_app.
Qed.

(** C2, as the code has it: the list [detect_blobs] returns holds one
    record for each key point that passes the edge test, in the order of
    detection, and a record is the key point's [pt] and [size] and nothing
    else; [main] then works out from the sizes in that list which blobs it
    reports as large. *)
Theorem returned_blobs_are_kept_keypoints (frame : loc) (config : Config)
    (w w' : world) (c : list (list (Z * Z * Z))) (blobs : list Blob) :
  heap w !! frame = Some (Color c) ->
  scan frame config w = (Ok blobs, w') ->
  let margin := default 10%Q (config !! "blob_margin") in
  let expected := default 0%Q (config !! "expected_count") in
  let H := fst (shape (Color c)) in
  let W := snd (shape (Color c)) in
  let passing := List.filter (edge_ok margin W H) (keypoints_of c config) in
  (length blobs = length passing /\
   map b_pt blobs = map pt passing /\
   map b_size blobs = map size passing) /\
  exists w1,
    detect_blobs frame config w = (Ok blobs, w1) /\
    printed w1 w' =
      OperatorFound (length blobs) expected
        (expected - inject_Z (Z.of_nat (length blobs))) ::
      map OperatorLargeBlob
        (List.filter (fun b => Qltb (avg_size blobs * (3 # 2)) (b_size b)) blobs).
Proof.
  intros Hc Hscan margin expected H W passing.
  destruct (scan_inv frame config w w' c blobs Hc Hscan) as (w1 & Hrun & Hp).
  split; [|now exists w1].
  destruct (detect_blobs_inv frame config w w1 c blobs Hc Hrun) as (-> & _).
  change (kept (default 10%Q (config !! "blob_margin"))
            (snd (shape (Color c))) (fst (shape (Color c)))
            (keypoints_of c config)) with passing.
  rewrite length_map, !map_map. auto.
Qed.


(** C5, as the code has it: with four key points of size 20 and one of
    size 80, in any order and at any positions, the mean radius is 16 and
    the standard deviation 12, the deviation 24 of the large one is not
    above twice the standard deviation, and no key point is reported. *)
Theorem four_small_one_large_none_flagged (image : loc) (config : Config)
    (w w' : world) (c : list (list (Z * Z * Z))) (blobs : list Blob) (i : nat) :
  heap w !! image = Some (Color c) ->
  detect_blobs image config w = (Ok blobs, w') ->
  map size (keypoints_of c config) =
    firstn i (repeat 20%Q 4) ++ 80%Q :: skipn i (repeat 20%Q 4) ->
  flagged w w' = [].
Proof.
  intros Hc Hrun Hsizes.
  destruct (detect_blobs_inv image config w w' c blobs Hc Hrun)
    as (_ & _ & -> & _).
  apply no_flag_lines. intros kp Hin _.
  set (kps := keypoints_of c config) in *.
  assert (Hr : radii kps = map (fun s => s / 2)%Q (map size kps))
    by (unfold radii; now rewrite map_map).
  assert (Hk : List.In (size kp) (map size kps)) by now apply in_map.
  unfold kp_r. rewrite Hr, Hsizes. rewrite Hsizes in Hk. clear Hr Hsizes.
  destruct i as [|[|[|[|i]]]]; cbn in Hk |- *;
    rewrite ?firstn_nil, ?skipn_nil in Hk |- *; cbn in Hk |- *;
    repeat (destruct Hk as [Hk|Hk]; [rewrite <- Hk; vm_compute; reflexivity|]);
    destruct Hk.
Qed.

(** C10: the edge test and the outlier comparison see a key point only
    through the integers [int(pt[0])], [int(pt[1])] and [int(size / 2)],
    while the statistics are those of the exact half-sizes; and there are
    key points for which the program reports a blob whose exact half-size
    is not more than two standard deviations from the mean. *)
Theorem truncated_radius_changes_flag :
  (forall margin W H kp,
     edge_ok margin W H (truncated kp) = edge_ok margin W H kp) /\
  (forall mean var kp,
     size_outlier mean var (kp_r (truncated kp)) =
     size_outlier mean var (kp_r kp)) /\
  exists (cv0 : OpenCV) (w : world) (c : list (list (Z * Z * Z)))
         (kp : KeyPoint),
    let w' := snd (@detect_blobs cv0 0%nat ∅ w) in
    let kps := @keypoints_of cv0 c ∅ in
    heap w !! 0%nat = Some (Color c) /\
    List.In kp kps /\
    ~ mean_radius (radii kps) == mean_radius (radii (map truncated kps)) /\
    List.In (PrintNonAverage (kp_x kp) (kp_y kp) (kp_r kp)) (printed w w') /\
    ~ non_average (Q2R (mean_radius (radii kps))) (std_radius (radii kps))
        (Q2R (size kp / 2)).
Proof.
  assert (Hx : forall kp, kp_x (truncated kp) = kp_x kp)
    by (intros; apply py_int_inject_Z).
  assert (Hy : forall kp, kp_y (truncated kp) = kp_y kp)
    by (intros; apply py_int_inject_Z).
  assert (Hr : forall kp, kp_r (truncated kp) = kp_r kp)
    by (intros; apply py_int_half_double).
  split; [|split].
  - intros. unfold edge_ok. now rewrite Hx, Hy, Hr.
  - intros. now rewrite Hr.
  - set (k1 := mkKeyPoint (30, 30)%Q (218 # 10)).
    set (k2 := mkKeyPoint (30, 30)%Q 22).
    exists (Sample.cv_with [k1; k2]),
           (Sample.world_with (Sample.blank 64 64) Sample.no_camera Sample.no_keys),
           (repeat (repeat (200, 200, 200) 64%nat) 64%nat), k1.
    cbn zeta. split; [vm_compute; reflexivity|]. split; [now left|].
    split; [vm_compute; discriminate|]. split.
    + assert (E : List.filter is_non_average
                    (printed
                       (Sample.world_with (Sample.blank 64 64)
                          Sample.no_camera Sample.no_keys)
                       (snd (@detect_blobs (Sample.cv_with [k1; k2]) 0%nat ∅
                               (Sample.world_with (Sample.blank 64 64)
                                  Sample.no_camera Sample.no_keys))))
                  = [PrintNonAverage 30 30 10])
        by (vm_compute; reflexivity).
      assert (Hin : List.In (PrintNonAverage 30 30 10)
                      [PrintNonAverage 30 30 10])
        by now left.
      rewrite <- E in Hin. apply filter_In in Hin as [Hin _]. exact Hin.
    + intros Hna.
      change (@keypoints_of (Sample.cv_with [k1; k2]) _ ∅) with [k1; k2] in Hna.
      unfold std_radius in Hna.
      apply far_from_mean_sqrt in Hna; [|apply var_radius_nonneg].
      vm_compute in Hna. discriminate.
Qed.

End Returned.

(** ** Focus.py *)

Section Focus.
Context `{cv : OpenCV}.


Lemma is_camera_in_focus_keeps (image : loc) (threshold : Q) (w : world)
    (l : loc) (a : ndarray) :
  heap w !! l = Some a ->
  heap (snd (is_camera_in_focus image threshold w)) !! l = Some a.
Proof.
  intros Hl. destruct (heap w !! image) as [[g|c]|] eqn:Hi.
  - now rewrite (is_camera_in_focus_gray _ _ _ _ Hi).
  - rewrite (is_camera_in_focus_color _ _ _ _ Hi). cbn. now apply alloc_keeps.
  - now rewrite (is_camera_in_focus_dangling _ _ _ Hi).
Qed.

Lemma detect_blobs_keeps (image : loc) (config : Config) (w : world)
    (l : loc) (a : ndarray) :
  heap w !! l = Some a ->
  heap (snd (detect_blobs image config w)) !! l = Some a.
Proof.
  intros Hl. destruct (heap w !! image) as [[g|c]|] eqn:Hi.
  - unfold detect_blobs.
    now rewrite (bind_raise _ _ _ _ _ (cvtColor_gray_rejects _ _ _ Hi)).
  - destruct (detect_blobs_run image config w c Hi)
      as (g & w' & _ & -> & Hkeep & _). now apply Hkeep.
  - unfold detect_blobs, cvtColor, load, bind. now rewrite Hi.
Qed.

(** After [n] idle turns: what the next frame decides. *)
Lemma wait_for_focus_after_idle (threshold : Q) (n fuel : nat) (w : world) :
  idle threshold w n ->
  (n < fuel)%nat ->
  match feed w (cam_pos w + n)%nat with
  | None =>
      exists w', wait_for_focus fuel threshold w = (Ok (Some None), w') /\
                 last (log w') = Some PrintFailedCapture
  | Some (Color c) =>
      if Qltb threshold (sharpness c) then
        exists frame w',
          wait_for_focus fuel threshold w = (Ok (Some (Some frame)), w') /\
          heap w' !! frame = Some (annotated threshold c) /\
          (forall l a, heap w !! l = Some a -> heap w' !! l = Some a)
      else
        Z.land (keyboard w (key_pos w + n)%nat) 255 = 27 ->
        exists w', wait_for_focus fuel threshold w = (Ok (Some None), w') /\
                   last (log w') = Some (DestroyWindow "Camera Focus")
  | Some (Gray _) =>
      exists w', wait_for_focus fuel threshold w =
                 (Raise (CvError "Invalid number of channels in input image"), w')
  end.
Proof.
  intros Hidle Hfuel.
  destruct (wait_for_focus_idle threshold n w Hidle)
    as (w1 & Hrun & Hfeed & Hkeys & Hcam & Hkey & Hheap).
  replace fuel with (n + S (fuel - S n))%nat by lia.
  rewrite Hrun, <- Hcam, <- Hkey, <- Hfeed, <- Hkeys.
  destruct (feed w1 (cam_pos w1)) as [[g|c]|] eqn:Hf.
  - cbn [wait_for_focus].
    rewrite (bind_ok _ _ _ _ _ (camera_read_frame _ _ Hf)).
    set (w2 := set_heap _ _).
    assert (H2 : heap w2 !! fresh (dom (heap w1)) = Some (Gray g))
      by apply lookup_insert_eq.
    rewrite (bind_raise _ _ _ _ _ (is_camera_in_focus_gray _ threshold _ _ H2)).
    now exists w2.
  - rewrite (wait_for_focus_turn _ _ _ _ Hf).
    destruct (Qltb threshold (sharpness c)).
    + eexists _, _. split; [reflexivity|]. split.
      * cbn. apply lookup_insert_eq.
      * intros l a Hl. cbn. apply (shown_frame_keeps threshold c w1).
        now apply Hheap.
    + intros Hesc. apply Z.eqb_eq in Hesc. rewrite Hesc.
      eexists. split; [reflexivity|]. cbn. apply last_snoc.
  - cbn [wait_for_focus].
    rewrite (bind_ok _ _ _ _ _ (camera_read_none _ Hf)).
    eexists. split; [reflexivity|]. cbn. apply last_snoc.
Qed.

(** While the frames stay out of focus and ESC is not pressed, the loop
    keeps running. *)
Lemma wait_for_focus_keeps_running (threshold : Q) (fuel : nat) (w : world) :
  idle threshold w fuel ->
  fst (wait_for_focus fuel threshold w) = Ok None.
Proof.
  intros Hidle.
  destruct (wait_for_focus_idle threshold fuel w Hidle) as (w1 & Hrun & _).
  specialize (Hrun 0%nat). rewrite Nat.add_0_r in Hrun. now rewrite Hrun.
Qed.

(** C7, as the code has it: after any number of out-of-focus frames, the
    first frame in focus is returned (with the status text drawn on it);
    a failed read and ESC both end the loop with the same value, [None]. *)
Theorem wait_for_focus_outcomes (threshold : Q) (n fuel : nat) (w : world) :
  idle threshold w n ->
  (n < fuel)%nat ->
  match feed w (cam_pos w + n)%nat with
  | None => fst (wait_for_focus fuel threshold w) = Ok (Some None)
  | Some (Color c) =>
      if Qltb threshold (sharpness c) then
        exists frame,
          fst (wait_for_focus fuel threshold w) = Ok (Some (Some frame)) /\
          heap (snd (wait_for_focus fuel threshold w)) !! frame =
            Some (annotated threshold c)
      else
        Z.land (keyboard w (key_pos w + n)%nat) 255 = 27 ->
        fst (wait_for_focus fuel threshold w) = Ok (Some None)
  | Some (Gray _) =>
      fst (wait_for_focus fuel threshold w) =
      Raise (CvError "Invalid number of channels in input image")
  end.
Proof.
  intros Hidle Hfuel.
  pose proof (wait_for_focus_after_idle threshold n fuel w Hidle Hfuel) as Hw.
  destruct (feed w (cam_pos w + n)%nat) as [[g|c]|].
  - destruct Hw as (w' & ->). reflexivity.
  - destruct (Qltb threshold (sharpness c)).
    + destruct Hw as (frame & w' & -> & Hh & _). now exists frame.
    + intros Hesc. destruct (Hw Hesc) as (w' & -> & _). reflexivity.
  - destruct Hw as (w' & -> & _). reflexivity.
Qed.

(** C8, as the code has it: [is_camera_in_focus] and [detect_blobs] leave
    every array that exists when they are called as it is, the image
    they are given included; [wait_for_focus] leaves those arrays as they
    are too, but draws the status text into the frame it has read, and
    the frame it returns is the annotated one. *)
Theorem frames_kept_except_annotation :
  (forall image threshold w l a,
     heap w !! l = Some a ->
     heap (snd (is_camera_in_focus image threshold w)) !! l = Some a) /\
  (forall image config w l a,
     heap w !! l = Some a ->
     heap (snd (detect_blobs image config w)) !! l = Some a) /\
  (forall threshold n fuel w c,
     idle threshold w n ->
     (n < fuel)%nat ->
     feed w (cam_pos w + n)%nat = Some (Color c) ->
     Qltb threshold (sharpness c) = true ->
     exists frame,
       fst (wait_for_focus fuel threshold w) = Ok (Some (Some frame)) /\
       heap (snd (wait_for_focus fuel threshold w)) !! frame =
         Some (put_text (Color c) true (sharpness c) (10, 30) green) /\
       (forall l a, heap w !! l = Some a ->
          heap (snd (wait_for_focus fuel threshold w)) !! l = Some a)).
Proof.
  split; [|split].
  - intros. now apply is_camera_in_focus_keeps.
  - intros. now apply detect_blobs_keeps.
  - intros threshold n fuel w c Hidle Hfuel Hf Hs.
    pose proof (wait_for_focus_after_idle threshold n fuel w Hidle Hfuel) as Hw.
    rewrite Hf, Hs in Hw. destruct Hw as (frame & w' & -> & Hh & Hkeep).
    exists frame. split; [reflexivity|]. split; [|exact Hkeep].
    cbn. rewrite Hh. unfold annotated. now rewrite Hs.
Qed.

End Focus.

Module SampleRuns.
Import Sample.

(** ** The programs on concrete inputs *)


(** The edge test works on the integers: a circle whose exact right end,
    90.9 + 9.9, lies beyond [width - margin = 100] passes, because
    [int(90.9) + int(9.9) = 99]. *)
Example exact_circle_may_cross_margin :
  let kp := mkKeyPoint (909 # 10, 50)%Q (198 # 10) in
  edge_ok 10 110 110 kp = true /\
  Qltb (inject_Z 110 - 10) (fst (pt kp) + size kp / 2) = true.
Proof. vm_compute. split; reflexivity. Qed.

(** C1 fails as stated: on a 200 x 200 frame with the default margin the
    blob of radius 40 at the centre is not reported, because the blob that
    crosses the left edge, which the edge test rejects, counts in the mean
    and the standard deviation; with the statistics of the blobs that pass
    the edge test it would be reported. *)
Lemma statistics_include_rejected_keypoint :
  let w := still tray200 in
  let w' := snd (@detect_blobs (cv_with seven) 0%nat ∅ w) in
  let passing := kept 10 200 200 seven in
  edge_ok 10 200 200 (mkKeyPoint (30, 100)%Q 80) = false /\
  passing = six /\
  flagged w w' = [] /\
  List.filter is_non_average
    (loop_events 10 200 200
       (mean_radius (radii passing)) (var_radius (radii passing)) seven)
  = [PrintNonAverage 100 100 40].
Proof. vm_compute. repeat split; reflexivity. Qed.

Lemma statistics_over_all_keypoints_witness :
  let w := still tray200 in
  let w' := snd (@detect_blobs (cv_with seven) 0%nat ∅ w) in
  flagged w w' =
  List.filter is_non_average
    (loop_events 10 200 200
       (mean_radius (radii seven)) (var_radius (radii seven)) seven).
Proof.
  assert (Hrun : @detect_blobs (cv_with seven) 0%nat ∅ (still tray200) =
                 (Ok (map to_blob six),
                  snd (@detect_blobs (cv_with seven) 0%nat ∅ (still tray200))))
    by (vm_compute; reflexivity).
  assert (Himg : heap (still tray200) !! 0%nat = Some (Color (pixels 200 200)))
    by (vm_compute; reflexivity).
  pose proof (proj1 (@statistics_over_all_keypoints (cv_with seven) 0%nat ∅
                       _ _ _ _ Himg Hrun)) as Hw.
  vm_compute in Hw. vm_compute. exact Hw.
Defined.

(** C2 fails as stated: two calls return the same list of records while
    the blob at the centre is reported as non-average in one and not in
    the other, so the records do not carry the flag. *)
Lemma returned_list_does_not_carry_flags :
  let w := still tray200 in
  let run6 := @detect_blobs (cv_with six) 0%nat ∅ w in
  let run7 := @detect_blobs (cv_with seven) 0%nat ∅ w in
  fst run6 = fst run7 /\
  fst run6 = Ok (map to_blob six) /\
  flagged w (snd run6) = [PrintNonAverage 100 100 40] /\
  flagged w (snd run7) = [].
Proof. vm_compute. repeat split; reflexivity. Qed.

Lemma returned_blobs_are_kept_keypoints_witness :
  (length [mkBlob (30, 30)%Q 20] = 1%nat /\
   map b_pt [mkBlob (30, 30)%Q 20] = [(30, 30)%Q] /\
   map b_size [mkBlob (30, 30)%Q 20] = [20%Q]) /\
  exists w1,
    @detect_blobs (cv_with one_blob) 0%nat ∅ (still tray) =
      (Ok [mkBlob (30, 30)%Q 20], w1) /\
    printed w1 (snd (@scan (cv_with one_blob) 0%nat ∅ (still tray))) =
      [OperatorFound 1 0 (0 - 1)].
Proof.
  assert (Hrun : @scan (cv_with one_blob) 0%nat ∅ (still tray) =
                 (Ok [mkBlob (30, 30)%Q 20],
                  snd (@scan (cv_with one_blob) 0%nat ∅ (still tray))))
    by (vm_compute; reflexivity).
  assert (Himg : heap (still tray) !! 0%nat = Some (Color (pixels 64 64)))
    by (vm_compute; reflexivity).
  pose proof (@returned_blobs_are_kept_keypoints (cv_with one_blob) 0%nat ∅
                _ _ _ _ Himg Hrun) as Hw.
  cbv zeta in Hw. destruct Hw as [Hl (w1 & Hd & Hp)].
  split; [vm_compute in Hl; vm_compute; exact Hl|].
  exists w1. split; [exact Hd|]. rewrite Hp. vm_compute. reflexivity.
Defined.



(** C5 fails as stated: on the 200 x 200 frame with margin 5 all five
    blobs pass the edge test, the mean radius is 16 and the variance 144
    (standard deviation 12), and the blob of radius 40, 24 away from the
    mean, is not reported: 24 is not above 2 x 12. *)
Lemma radius_40_not_flagged :
  let w := still tray200 in
  let run := @detect_blobs (cv_with five) 0%nat margin5 w in
  fst run = Ok (map to_blob five) /\
  Qeq_bool (mean_radius (radii five)) 16 = true /\
  Qeq_bool (var_radius (radii five)) 144 = true /\
  size_outlier (mean_radius (radii five)) (var_radius (radii five)) 40 = false /\
  flagged w (snd run) = [].
Proof. vm_compute. repeat split; reflexivity. Qed.

Lemma four_small_one_large_none_flagged_witness :
  flagged (still tray200)
    (snd (@detect_blobs (cv_with five) 0%nat margin5 (still tray200))) = [].
Proof.
  assert (Hrun : @detect_blobs (cv_with five) 0%nat margin5 (still tray200) =
                 (Ok (map to_blob five),
                  snd (@detect_blobs (cv_with five) 0%nat margin5 (still tray200))))
    by (vm_compute; reflexivity).
  assert (Himg : heap (still tray200) !! 0%nat = Some (Color (pixels 200 200)))
    by (vm_compute; reflexivity).
  exact (@four_small_one_large_none_flagged (cv_with five) 0%nat margin5
           _ _ _ _ 4%nat Himg Hrun eq_refl).
Defined.


(** C7 fails as stated: a camera that delivers no frame and an ESC after
    an out-of-focus frame both make [wait_for_focus] return [None]; only
    the printed line tells them apart. *)
Lemma exhaustion_and_cancel_same_result :
  let exhausted := world_with tray no_camera no_keys in
  let cancelled := world_with tray (camera_of (blank 32 16)) esc_pressed in
  feed exhausted 0%nat = None /\
  feed cancelled 0%nat = Some (blank 32 16) /\
  keyboard cancelled 0%nat = 27 /\
  fst (@wait_for_focus (cv_with []) 3 9 exhausted) = Ok (Some None) /\
  fst (@wait_for_focus (cv_with []) 3 9 cancelled) = Ok (Some None) /\
  last (log (snd (@wait_for_focus (cv_with []) 3 9 exhausted))) =
    Some PrintFailedCapture /\
  last (log (snd (@wait_for_focus (cv_with []) 3 9 cancelled))) =
    Some (DestroyWindow "Camera Focus").
Proof. vm_compute. repeat split; reflexivity. Qed.

Lemma wait_for_focus_outcomes_witness :
  exists frame,
    fst (@wait_for_focus (cv_with []) 1 9
           (world_with tray (camera_of (sharp 32 16)) no_keys)) =
    Ok (Some (Some frame)) /\
    heap (snd (@wait_for_focus (cv_with []) 1 9
                 (world_with tray (camera_of (sharp 32 16)) no_keys))) !! frame =
    Some (paint_px (sharp 32 16) (10, 30) (0, 255, 0)).
Proof.
  assert (Hidle : @idle (cv_with []) 9
                    (world_with tray (camera_of (sharp 32 16)) no_keys) 0)
    by (intros i Hi; lia).
  pose proof (@wait_for_focus_outcomes (cv_with []) 9 0 1
                (world_with tray (camera_of (sharp 32 16)) no_keys)
                Hidle (Nat.lt_0_succ 0)) as Hw.
  vm_compute in Hw. vm_compute. exact Hw.
Defined.

(** C8 fails as stated: the frame [wait_for_focus] returns is not the
    frame the camera delivered; the status text has been drawn into it. *)
Lemma wait_for_focus_draws_on_frame :
  let w := world_with tray (camera_of (sharp 32 16)) no_keys in
  let run := @wait_for_focus (cv_with []) 1 9 w in
  feed w 0%nat = Some (sharp 32 16) /\
  fst run = Ok (Some (Some 1%nat)) /\
  heap (snd run) !! 1%nat = Some (paint_px (sharp 32 16) (10, 30) (0, 255, 0)) /\
  paint_px (sharp 32 16) (10, 30) (0, 255, 0) <> sharp 32 16.
Proof.
  vm_compute. repeat split; try reflexivity. intros E. discriminate E.
Qed.

Lemma frames_kept_except_annotation_witness :
  heap (snd (@detect_blobs (cv_with five) 0%nat margin5 (still tray200)))
    !! 0%nat = Some tray200 /\
  heap (snd (@is_camera_in_focus (cv_with []) 0%nat 9 (still tray)))
    !! 0%nat = Some tray.
Proof.
  split.
  - apply (proj1 (proj2 (@frames_kept_except_annotation (cv_with five)))).
    vm_compute. reflexivity.
  - apply (proj1 (@frames_kept_except_annotation (cv_with []))).
    vm_compute. reflexivity.
Defined.



End SampleRuns.

(** * Further properties of the code *)

(** ** The edge filter and the list returned *)

Section EdgeFilterMore.
Context `{cv : OpenCV}.

Lemma edge_ok_margin_mono (m1 m2 : Q) (W H : Z) (kp : KeyPoint) :
  (m1 <= m2)%Q -> edge_ok m2 W H kp = true -> edge_ok m1 W H kp = true.
Proof.
  intros Hm He. apply edge_ok_strict in He as (H1 & H2 & H3 & H4).
  apply edge_ok_strict. repeat split.
  - eapply Qle_lt_trans; eassumption.
  - eapply Qlt_le_trans; [exact H2|].
    apply Qplus_le_r. now apply Qopp_le_compat.
  - eapply Qle_lt_trans; eassumption.
  - eapply Qlt_le_trans; [exact H4|].
    apply Qplus_le_r. now apply Qopp_le_compat.
Qed.

Lemma kept_margin_sublist (m1 m2 : Q) (W H : Z) (kps : list KeyPoint) :
  (m1 <= m2)%Q -> sublist (kept m2 W H kps) (kept m1 W H kps).
Proof.
  intros Hm. induction kps as [|kp rest IH]; [constructor|].
  unfold kept in *. cbn [List.filter].
  destruct (edge_ok m2 W H kp) eqn:E2.
  - rewrite (edge_ok_margin_mono m1 m2 W H kp Hm E2). now constructor.
  - destruct (edge_ok m1 W H kp); [now constructor|exact IH].
Qed.

Lemma keypoints_of_margin (c : list (list (Z * Z * Z))) (config : Config) (m : Q) :
  keypoints_of c (<["blob_margin" := m]> config) = keypoints_of c config.
Proof.
  unfold keypoints_of. now rewrite !lookup_insert_ne by discriminate.
Qed.

(** X1: raising [blob_margin] never adds a blob: on the same frame, the
    list returned with the larger margin is a sublist of the list
    returned with the smaller one. *)
Theorem larger_margin_returns_sublist (image : loc) (config : Config)
    (w w1 w2 : world) (c : list (list (Z * Z * Z))) (m1 m2 : Q)
    (blobs1 blobs2 : list Blob) :
  heap w !! image = Some (Color c) ->
  (m1 <= m2)%Q ->
  detect_blobs image (<["blob_margin" := m1]> config) w = (Ok blobs1, w1) ->
  detect_blobs image (<["blob_margin" := m2]> config) w = (Ok blobs2, w2) ->
  sublist blobs2 blobs1.
Proof.
  intros Hc Hm Hrun1 Hrun2.
  destruct (detect_blobs_inv image _ w w1 c blobs1 Hc Hrun1) as (-> & _).
  destruct (detect_blobs_inv image _ w w2 c blobs2 Hc Hrun2) as (-> & _).
  rewrite !keypoints_of_margin, !lookup_insert_eq. cbn [default].
  apply (fmap_sublist to_blob). now apply kept_margin_sublist.
Qed.

(** X2: a blob is returned only if it fits between the margins: its
    integer diameter [2 * int(size / 2)] is below the frame's width and
    height less twice the margin. *)
Theorem returned_blob_fits (image : loc) (config : Config)
    (w w' : world) (c : list (list (Z * Z * Z))) (blobs : list Blob) (b : Blob) :
  heap w !! image = Some (Color c) ->
  detect_blobs image config w = (Ok blobs, w') ->
  List.In b blobs ->
  let margin := default 10%Q (config !! "blob_margin") in
  let H := fst (shape (Color c)) in
  let W := snd (shape (Color c)) in
  let r := py_int (b_size b / 2) in
  (inject_Z (2 * r) < inject_Z W - 2 * margin /\
   inject_Z (2 * r) < inject_Z H - 2 * margin)%Q.
Proof.
  intros Hc Hrun Hb margin H W r.
  destruct (detect_blobs_inv image config w w' c blobs Hc Hrun) as (-> & _).
  apply returned_blob_origin in Hb as (kp & _ & He & Hpt & Hsz).
  apply edge_ok_strict in He as (H1 & H2 & H3 & H4).
  unfold kp_r in *. rewrite Hsz in *. fold r margin H W in H1, H2, H3, H4.
  set (x := kp_x kp) in *. set (y := kp_y kp) in *.
  assert (E : forall a, (inject_Z (2 * r) ==
                         inject_Z (a + r) - inject_Z (a - r))%Q).
  { intros a. unfold Qeq. cbn. lia. }
  pose proof (E x) as Ex. pose proof (E y) as Ey.
  split; Lqa.lra.
Qed.

Lemma excluded_lines (margin : Q) (W H : Z) (mean var : Q)
    (kps : list KeyPoint) :
  (length (kept margin W H kps) +
   length (List.filter is_excluded (loop_events margin W H mean var kps))
   = length kps)%nat.
Proof.
  induction kps as [|kp rest IH]; [reflexivity|].
  cbn [loop_events flat_map]. rewrite List.filter_app, length_app.
  fold (loop_events margin W H mean var rest).
  unfold kept in *. cbn [List.filter]. unfold kp_events.
  destruct (edge_ok margin W H kp).
  - destruct (size_outlier mean var (kp_r kp)); cbn; lia.
  - cbn. lia.
Qed.

(** X3: every key point the detector reports is accounted for: the
    number of blobs returned plus the number of "Excluded by edge filter"
    lines printed is the number of key points. *)
Theorem returned_plus_excluded (image : loc) (config : Config)
    (w w' : world) (c : list (list (Z * Z * Z))) (blobs : list Blob) :
  heap w !! image = Some (Color c) ->
  detect_blobs image config w = (Ok blobs, w') ->
  (length blobs + length (List.filter is_excluded (printed w w'))
   = length (keypoints_of c config))%nat /\
  List.In (PrintKeypoints (length (keypoints_of c config))) (printed w w').
Proof.
  intros Hc Hrun.
  destruct (detect_blobs_inv image config w w' c blobs Hc Hrun)
    as (-> & (g & Hp) & _).
  rewrite Hp. split.
  - rewrite length_map. cbn [app List.filter is_excluded].
    rewrite List.filter_app. cbn. rewrite app_nil_r.
    apply excluded_lines.
  - cbn. auto.
Qed.

End EdgeFilterMore.

(** ** [detect_blobs] as a whole *)

Section DetectMore.
Context `{cv : OpenCV}.


(** X5: when the detector finds no key point, [detect_blobs] returns the
    empty list, prints no line for any blob, and shows as "Blobs" the
    thresholded image with nothing drawn on it. *)
Theorem no_keypoints_no_blobs (image : loc) (config : Config)
    (w w' : world) (c : list (list (Z * Z * Z))) (blobs : list Blob) :
  heap w !! image = Some (Color c) ->
  detect_blobs image config w = (Ok blobs, w') ->
  keypoints_of c config = [] ->
  blobs = [] /\
  exists g,
    thresholded c = Gray g /\
    printed w w' =
      [Imshow "Thresholded Image" (Gray g);
       PrintContours (count_contours (Gray g));
       PrintKeypoints 0;
       Imshow "Blobs" (Color (gray2bgr g))].
Proof.
  intros Hc Hrun Hk.
  destruct (detect_blobs_run image config w c Hc)
    as (g & w1 & Hg & Hrun1 & _ & Hlog & _).
  rewrite Hrun in Hrun1. inversion Hrun1; subst blobs w1.
  rewrite Hk in *. split; [reflexivity|].
  exists g. split; [exact Hg|].
  unfold printed. rewrite Hlog. cbn. apply skipn_length_app.
Qed.

(** X6: [detect_blobs] keeps no state between calls: called again on
    the same frame with the same configuration, in the world the first
    call left, it returns the same list and prints and shows the same. *)
Theorem detect_blobs_repeatable (image : loc) (config : Config)
    (w w' : world) (c : list (list (Z * Z * Z))) (blobs : list Blob) :
  heap w !! image = Some (Color c) ->
  detect_blobs image config w = (Ok blobs, w') ->
  exists w'',
    detect_blobs image config w' = (Ok blobs, w'') /\
    printed w' w'' = printed w w'.
Proof.
  intros Hc Hrun.
  destruct (detect_blobs_run image config w c Hc)
    as (g & w1 & Hg & Hrun1 & Hkeep & Hlog & _).
  rewrite Hrun in Hrun1. inversion Hrun1; subst blobs w1.
  destruct (detect_blobs_run image config w' c (Hkeep _ _ Hc))
    as (g' & w'' & Hg' & Hrun2 & _ & Hlog' & _).
  assert (g' = g) by congruence. subst g'.
  exists w''. split; [exact Hrun2|].
  unfold printed. rewrite Hlog', skipn_length_app.
  rewrite Hlog. now rewrite skipn_length_app.
Qed.

End DetectMore.

(** ** How many blobs the size test can report *)

Section Counting.

Lemma Qlen_cons {A} (x : A) (l : list A) : (Qlen (x :: l) == Qlen l + 1)%Q.
Proof.
  unfold Qlen. cbn [length]. rewrite Nat2Z.inj_succ. unfold Z.succ.
  rewrite inject_Z_plus. reflexivity.
Qed.

Lemma Qlen_nonneg {A} (l : list A) : (0 <= Qlen l)%Q.
Proof. unfold Qlen, Qle. cbn. lia. Qed.

Lemma Qlen_pos {A} (l : list A) : l <> [] -> (0 < Qlen l)%Q.
Proof.
  destruct l; [congruence|]. intros _. unfold Qlen, Qlt. cbn. lia.
Qed.

Lemma Qsum_app (l k : list Q) : (Qsum (l ++ k) == Qsum l + Qsum k)%Q.
Proof.
  unfold Qsum. induction l as [|x l IH]; cbn [app fold_right].
  - ring.
  - rewrite IH. ring.
Qed.

Lemma np_mean_sum (l : list Q) : l <> [] -> (Qsum l == Qlen l * np_mean l)%Q.
Proof.
  intros Hl. unfold np_mean. fold (Qlen l). field.
  intros E. pose proof (Qlen_pos l Hl) as Hp. rewrite E in Hp.
  now apply Qlt_irrefl in Hp.
Qed.

(** The sum of the squared deviations is the variance times the length. *)
Lemma np_var_sum (l : list Q) :
  l <> [] -> (Qsum (map (sq_dev (np_mean l)) l) == Qlen l * np_var l)%Q.
Proof.
  intros Hl. unfold np_var. cbn zeta.
  change (fun x : Q => ((x - np_mean l) * (x - np_mean l))%Q)
    with (sq_dev (np_mean l)).
  rewrite (np_mean_sum (map (sq_dev (np_mean l)) l)).
  - unfold Qlen. now rewrite length_map.
  - destruct l; [congruence|discriminate].
Qed.

Lemma sq_dev_nonneg (m x : Q) : (0 <= sq_dev m x)%Q.
Proof. apply Qsquare_nonneg. Qed.

(** Chebyshev's count: the elements further than [2 * sqrt v] from [m]
    weigh more than [4 * v] each in the sum of the squared deviations. *)
Lemma far_elements_weigh (m v : Q) (l : list Q) :
  (0 <= v)%Q ->
  let far := List.filter (fun x => Qltb (4 * v) (sq_dev m x)) l in
  (4 * v * Qlen far <= Qsum (map (sq_dev m) l))%Q /\
  (far <> [] -> (4 * v * Qlen far < Qsum (map (sq_dev m) l))%Q).
Proof.
  intros Hv. induction l as [|x l [IH1 IH2]]; cbn zeta.
  - cbn [List.filter map Qsum fold_right]. split; [|congruence].
    change (Qlen (@nil Q)) with 0%Q. Lqa.lra.
  - cbn [List.filter map Qsum fold_right].
    fold (Qsum (map (sq_dev m) l)).
    pose proof (sq_dev_nonneg m x) as Hx.
    destruct (Qltb (4 * v) (sq_dev m x)) eqn:E.
    + apply Qltb_lt in E.
      set (far := List.filter (fun x0 : Q => Qltb (4 * v) (sq_dev m x0)) l) in *.
      pose proof (Qlen_cons x far) as Hc.
      pose proof (Qlen_nonneg far) as Hn.
      split; [|intros _]; rewrite Hc; Lqa.nra.
    + split; [Lqa.lra|]. intros Hf. specialize (IH2 Hf). Lqa.lra.
Qed.

Lemma filter_length_le {A} (p q : A -> bool) (l : list A) :
  (forall x, List.In x l -> p x = true -> q x = true) ->
  (length (List.filter p l) <= length (List.filter q l))%nat.
Proof.
  induction l as [|x l IH]; intros H; [reflexivity|].
  cbn [List.filter].
  assert (IH' := IH (fun y Hy => H y (or_intror Hy))).
  destruct (p x) eqn:Ep.
  - rewrite (H x (or_introl eq_refl) Ep). cbn. lia.
  - destruct (q x); cbn; lia.
Qed.

Lemma filter_map_length {A B} (f : A -> B) (p : B -> bool) (l : list A) :
  length (List.filter p (map f l)) = length (List.filter (fun x => p (f x)) l).
Proof.
  induction l as [|x l IH]; [reflexivity|].
  cbn. destruct (p (f x)); cbn; now rewrite IH.
Qed.

Lemma flag_lines_count (margin : Q) (W H : Z) (mean var : Q)
    (kps : list KeyPoint) :
  length (List.filter is_non_average (loop_events margin W H mean var kps)) =
  length (List.filter
            (fun kp => edge_ok margin W H kp && size_outlier mean var (kp_r kp))
            kps).
Proof.
  induction kps as [|kp rest IH]; [reflexivity|].
  cbn [loop_events flat_map]. rewrite List.filter_app, length_app.
  fold (loop_events margin W H mean var rest). rewrite IH.
  cbn [List.filter]. unfold kp_events.
  destruct (edge_ok margin W H kp); [|reflexivity].
  destruct (size_outlier mean var (kp_r kp)); reflexivity.
Qed.

Lemma Qltb_compat (a b a' b' : Q) :
  (a == a')%Q -> (b == b')%Q -> Qltb a b = Qltb a' b'.
Proof.
  intros Ha Hb. destruct (Qltb a' b') eqn:E.
  - apply Qltb_lt. apply Qltb_lt in E. now rewrite Ha, Hb.
  - apply Qltb_ge. apply Qltb_ge in E. now rewrite Ha, Hb.
Qed.

(** With a whole half-size the loop's comparison is the one on the
    exact half-size. *)
Lemma size_outlier_whole (mean var : Q) (kp : KeyPoint) :
  (size kp / 2 == inject_Z (kp_r kp))%Q ->
  size_outlier mean var (kp_r kp) =
  Qltb 0 var && Qltb (4 * var) (sq_dev mean (size kp / 2)).
Proof.
  intros Hw. unfold size_outlier, sq_dev. cbn zeta. f_equal.
  apply Qltb_compat; [reflexivity|]. now rewrite Hw.
Qed.

Lemma radii_nonempty (kps : list KeyPoint) : kps <> [] -> radii kps <> [].
Proof. destruct kps; [congruence|discriminate]. Qed.

Lemma stats_nonempty (rs : list Q) :
  rs <> [] -> mean_radius rs = np_mean rs /\ var_radius rs = np_var rs.
Proof. destruct rs; [congruence|]. intros _. split; reflexivity. Qed.

Lemma Qlen_lt4 {A B} (l1 : list A) (l2 : list B) :
  (4 * Qlen l1 < Qlen l2)%Q -> (4 * length l1 < length l2)%nat.
Proof. unfold Qlen, Qlt. cbn. lia. Qed.

(** Chebyshev's bound on the key points: a test that only passes key
    points whose exact half-size is more than two standard deviations
    from the mean passes fewer than a quarter of them. *)
Lemma chebyshev_count (kps : list KeyPoint) (p : KeyPoint -> bool) :
  let m := mean_radius (radii kps) in
  let v := var_radius (radii kps) in
  (forall kp, List.In kp kps -> p kp = true ->
     Qltb 0 v = true /\ Qltb (4 * v) (sq_dev m (size kp / 2)) = true) ->
  List.filter p kps = [] \/
  (4 * length (List.filter p kps) < length kps)%nat.
Proof.
  intros m v Hp.
  destruct (List.filter p kps) as [|k0 ks] eqn:Hk; [now left|right].
  rewrite <- Hk.
  assert (Hk0 : List.In k0 kps /\ p k0 = true).
  { apply filter_In. rewrite Hk. now left. }
  destruct Hk0 as [Hin0 Hp0].
  assert (Hne : kps <> []) by (intros E; rewrite E in Hin0; destruct Hin0).
  destruct (Hp k0 Hin0 Hp0) as [Hv _]. apply Qltb_lt in Hv.
  destruct (stats_nonempty (radii kps) (radii_nonempty kps Hne)) as [Em Ev].
  set (far := fun x => Qltb (4 * v) (sq_dev m x)).
  assert (Hle : (length (List.filter p kps) <=
                 length (List.filter far (radii kps)))%nat).
  { unfold radii at 1. rewrite filter_map_length.
    apply filter_length_le. intros kp Hin Hpk.
    now destruct (Hp kp Hin Hpk). }
  assert (Hfar : List.filter far (radii kps) <> []).
  { intros E. rewrite E, Hk in Hle. cbn in Hle. lia. }
  destruct (far_elements_weigh m v (radii kps) (Qlt_le_weak _ _ Hv))
    as [_ Hstrict].
  specialize (Hstrict Hfar). fold far in Hstrict.
  pose proof (np_var_sum (radii kps) (radii_nonempty kps Hne)) as Hsum.
  fold m v in Em, Ev. rewrite <- Em, <- Ev in Hsum.
  assert (Hq : (4 * Qlen (List.filter far (radii kps)) < Qlen (radii kps))%Q).
  { rewrite Hsum in Hstrict.
    apply (Qmult_lt_l _ _ v Hv). Lqa.lra. }
  apply Qlen_lt4 in Hq. unfold radii in Hq at 2. rewrite length_map in Hq. lia.
Qed.

Lemma sum_sq_shift (x : Q) (l : list Q) :
  (0 <= Qlen l * (x * x) - 2 * x * Qsum l + Qsum (map (sq_dev 0) l))%Q.
Proof.
  induction l as [|a l IH].
  - change (Qlen (@nil Q)) with 0%Q. cbn [map Qsum fold_right]. Lqa.lra.
  - cbn [map Qsum fold_right].
    fold (Qsum l). fold (Qsum (map (sq_dev 0) l)).
    pose proof (Qlen_cons a l) as Hc. rewrite Hc. unfold sq_dev at 1.
    pose proof (Qsquare_nonneg (x - a)) as Hx. Lqa.nra.
Qed.

(** The square of a sum is at most the length times the sum of squares. *)
Lemma sq_sum_le (l : list Q) :
  (Qsum l * Qsum l <= Qlen l * Qsum (map (sq_dev 0) l))%Q.
Proof.
  induction l as [|a l IH].
  - change (Qlen (@nil Q)) with 0%Q. cbn [map Qsum fold_right]. Lqa.lra.
  - cbn [map Qsum fold_right].
    fold (Qsum l). fold (Qsum (map (sq_dev 0) l)).
    pose proof (Qlen_cons a l) as Hc. rewrite Hc. unfold sq_dev at 1.
    pose proof (sum_sq_shift a l) as Hs. Lqa.nra.
Qed.

Lemma deviations_sum (m : Q) (l : list Q) :
  (Qsum (map (fun a => a - m) l) == Qsum l - Qlen l * m)%Q.
Proof.
  induction l as [|a l IH].
  - change (Qlen (@nil Q)) with 0%Q. cbn [map Qsum fold_right]. ring.
  - cbn [map Qsum fold_right].
    fold (Qsum l). fold (Qsum (map (fun a => a - m) l))%Q.
    rewrite IH, (Qlen_cons a l). ring.
Qed.

Lemma Qsum_sq_dev_shift (m : Q) (l : list Q) :
  (Qsum (map (sq_dev 0) (map (fun a => a - m) l)) == Qsum (map (sq_dev m) l))%Q.
Proof.
  induction l as [|a l IH]; [reflexivity|].
  cbn [map Qsum fold_right].
  fold (Qsum (map (sq_dev m) l)).
  fold (Qsum (map (sq_dev 0) (map (fun a => a - m)%Q l))).
  rewrite IH. unfold sq_dev. ring.
Qed.

(** Samuelson's inequality: no element is further from the mean than
    [sqrt (n - 1)] standard deviations. *)
Lemma samuelson (l : list Q) (x : Q) :
  List.In x l ->
  (sq_dev (np_mean l) x <= (Qlen l - 1) * np_var l)%Q.
Proof.
  intros Hin.
  assert (Hne : l <> []) by (intros E; rewrite E in Hin; destruct Hin).
  set (m := np_mean l).
  apply in_split in Hin as (l1 & l2 & El).
  set (rest := l1 ++ l2).
  pose proof (np_var_sum l Hne) as Hvar. fold m in Hvar.
  pose proof (np_mean_sum l Hne) as Hmean. fold m in Hmean.
  pose proof (sq_sum_le (map (fun a => a - m)%Q rest)) as Hqm.
  rewrite Qsum_sq_dev_shift, deviations_sum in Hqm.
  assert (Hlen : (Qlen l == Qlen rest + 1)%Q).
  { rewrite El. unfold Qlen, rest. rewrite !length_app. cbn [length].
    rewrite Nat.add_succ_r, Nat2Z.inj_succ. unfold Z.succ.
    rewrite inject_Z_plus. reflexivity. }
  assert (Hlen' : Qlen (map (fun a => a - m)%Q rest) = Qlen rest)
    by (unfold Qlen; now rewrite length_map).
  rewrite Hlen' in Hqm.
  assert (Hs : (Qsum l == Qsum rest + x)%Q).
  { rewrite El. unfold rest. rewrite !Qsum_app. cbn [Qsum fold_right].
    fold (Qsum l2). ring. }
  assert (Hd : (Qsum (map (sq_dev m) l) ==
                Qsum (map (sq_dev m) rest) + sq_dev m x)%Q).
  { rewrite El. unfold rest. rewrite !map_app, !Qsum_app.
    cbn [map Qsum fold_right]. fold (Qsum (map (sq_dev m) l2)). ring. }
  pose proof (Qlen_nonneg rest) as Hn.
  pose proof (Qsum_nonneg (map (sq_dev m) rest)) as Hrest.
  assert (Hr : (0 <= Qsum (map (sq_dev m) rest))%Q).
  { apply Hrest. intros y Hy. apply in_map_iff in Hy as (z & <- & _).
    apply sq_dev_nonneg. }
  clear Hrest.
  assert (Hx : (Qsum rest - Qlen rest * m == - (x - m))%Q).
  { rewrite Hlen in Hmean. Lqa.nra. }
  rewrite Hx in Hqm.
  assert (Hsq : ((- (x - m)) * (- (x - m)) == sq_dev m x)%Q)
    by (unfold sq_dev; ring).
  rewrite Hsq in Hqm.
  set (d := sq_dev m x) in *. set (S := Qsum (map (sq_dev m) rest)) in *.
  set (k := Qlen rest) in *. set (n := Qlen l) in *. set (v := np_var l) in *.
  assert (Hnv : (n * v == S + d)%Q) by Lqa.lra.
  assert (Hkv : (k * (n * v) == k * S + k * d)%Q) by (rewrite Hnv; ring).
  assert (Hnpos : (0 < n)%Q) by Lqa.lra.
  assert (Hgoal : (n * d <= k * (n * v))%Q).
  { rewrite Hkv, Hlen. Lqa.lra. }
  assert (E : (n * ((n - 1) * v) == k * (n * v))%Q) by (rewrite Hlen; ring).
  apply (Qmult_le_l _ _ n Hnpos). rewrite E. exact Hgoal.
Qed.

Section CountingProgram.
Context `{cv : OpenCV}.

(** X7: when the half-sizes of the key points are whole numbers, fewer
    than a quarter of the key points can be reported as non-average
    (Chebyshev's bound for two standard deviations). *)
Theorem fewer_than_a_quarter_flagged (image : loc) (config : Config)
    (w w' : world) (c : list (list (Z * Z * Z))) (blobs : list Blob) :
  heap w !! image = Some (Color c) ->
  detect_blobs image config w = (Ok blobs, w') ->
  (forall kp, List.In kp (keypoints_of c config) ->
     (size kp / 2 == inject_Z (kp_r kp))%Q) ->
  flagged w w' = [] \/
  (4 * length (flagged w w') < length (keypoints_of c config))%nat.
Proof.
  intros Hc Hrun Hwhole.
  destruct (detect_blobs_inv image config w w' c blobs Hc Hrun)
    as (_ & _ & -> & _).
  set (kps := keypoints_of c config) in *.
  set (margin := default 10%Q (config !! "blob_margin")).
  set (W := snd (shape (Color c))). set (H := fst (shape (Color c))).
  set (flag := fun kp => edge_ok margin W H kp &&
                         size_outlier (mean_radius (radii kps))
                           (var_radius (radii kps)) (kp_r kp)).
  destruct (chebyshev_count kps flag) as [Hnone|Hfew].
  - intros kp Hin Hf. unfold flag in Hf.
    apply andb_true_iff in Hf as [_ Ho].
    rewrite (size_outlier_whole _ _ kp (Hwhole kp Hin)) in Ho.
    now apply andb_true_iff in Ho.
  - left. apply length_zero_iff_nil.
    rewrite flag_lines_count. fold flag. now rewrite Hnone.
  - right. rewrite flag_lines_count. exact Hfew.
Qed.


End CountingProgram.

End Counting.

(** ** The loop of [wait_for_focus] *)

Section FocusMore.
Context `{cv : OpenCV}.

Lemma idle_shift (threshold : Q) (w w1 : world) (n : nat) :
  feed w1 = feed w -> keyboard w1 = keyboard w ->
  cam_pos w1 = S (cam_pos w) -> key_pos w1 = S (key_pos w) ->
  out_of_focus threshold (feed w (cam_pos w)) ->
  Z.land (keyboard w (key_pos w)) 255 <> 27 ->
  idle threshold w1 n -> idle threshold w (S n).
Proof.
  intros Hf Hk Hc Hp H0 Hk0 Hidle i Hi.
  destruct i as [|i].
  - rewrite !Nat.add_0_r. auto.
  - specialize (Hidle i ltac:(lia)).
    rewrite Hf, Hk, Hc, Hp in Hidle.
    now rewrite <- !Nat.add_succ_comm.
Qed.


(** Idle turns: what they read and print. *)
Lemma wait_for_focus_idle_trace (threshold : Q) (n : nat) :
  forall w : world,
    idle threshold w n ->
    exists w' : world,
      (forall fuel, wait_for_focus (n + fuel) threshold w =
                    wait_for_focus fuel threshold w') /\
      feed w' = feed w /\ keyboard w' = keyboard w /\
      cam_pos w' = (cam_pos w + n)%nat /\ key_pos w' = (key_pos w + n)%nat /\
      exists evs, log w' = log w ++ evs /\ List.filter is_release evs = [].
Proof.
  induction n as [|n IH]; intros w Hidle.
  - exists w. rewrite !Nat.add_0_r. repeat split; auto.
    exists []. now rewrite app_nil_r.
  - destruct (Hidle 0%nat ltac:(lia)) as [(c & Hc & Hs) Hk].
    rewrite Nat.add_0_r in Hc, Hk.
    set (w1 := next_key (shown_frame threshold c w)).
    destruct (IH w1) as (w' & Hrun & Hfeed & Hkeys & Hcam & Hkey & evs & Hlog & Hrel).
    { intros i Hi. specialize (Hidle (S i) ltac:(lia)).
      cbn. now rewrite <- !Nat.add_succ_comm in Hidle. }
    exists w'. repeat split.
    + intros fuel. cbn [Nat.add].
      rewrite (wait_for_focus_turn _ _ _ _ Hc), Hs.
      apply Z.eqb_neq in Hk. rewrite Hk. apply Hrun.
    + exact Hfeed.
    + exact Hkeys.
    + rewrite Hcam. cbn. lia.
    + rewrite Hkey. cbn. lia.
    + eexists. split.
      * rewrite Hlog. cbn. rewrite <- app_assoc. reflexivity.
      * cbn. exact Hrel.
Qed.

(** X10: how [wait_for_focus] leaves the camera and the keyboard when it
    stops at its turn [n + 1].  It has read exactly [n + 1] frames, also
    after a failed read: it never reads again.  It has asked for a key
    only after out-of-focus frames, so a frame in focus is returned even
    when ESC is down.  And it releases the camera when it returns a
    frame and when ESC is pressed, but not after a failed read. *)
Theorem wait_for_focus_reads_and_release (threshold : Q) (n fuel : nat)
    (w : world) :
  idle threshold w n ->
  (n < fuel)%nat ->
  let w' := snd (wait_for_focus fuel threshold w) in
  match feed w (cam_pos w + n)%nat with
  | None =>
      cam_pos w' = (cam_pos w + S n)%nat /\
      key_pos w' = (key_pos w + n)%nat /\
      List.filter is_release (printed w w') = []
  | Some (Color c) =>
      if Qltb threshold (sharpness c) then
        cam_pos w' = (cam_pos w + S n)%nat /\
        key_pos w' = (key_pos w + n)%nat /\
        List.filter is_release (printed w w') = [CameraRelease]
      else
        Z.land (keyboard w (key_pos w + n)%nat) 255 = 27 ->
        cam_pos w' = (cam_pos w + S n)%nat /\
        key_pos w' = (key_pos w + S n)%nat /\
        List.filter is_release (printed w w') = [CameraRelease]
  | Some (Gray _) =>
      cam_pos w' = (cam_pos w + S n)%nat /\
      key_pos w' = (key_pos w + n)%nat /\
      List.filter is_release (printed w w') = []
  end.
Proof.
  intros Hidle Hfuel. cbn zeta.
  destruct (wait_for_focus_idle_trace threshold n w Hidle)
    as (w1 & Hrun & Hfeed & Hkeys & Hcam & Hkey & evs & Hlog & Hrel).
  replace fuel with (n + S (fuel - S n))%nat by lia.
  rewrite Hrun, <- Hcam, <- Hkey, <- Hfeed, <- Hkeys.
  assert (Hprinted : forall w2 more,
            log w2 = log w1 ++ more ->
            List.filter is_release (printed w w2) =
            List.filter is_release more).
  { intros w2 more E. unfold printed. rewrite E, Hlog, <- app_assoc.
    rewrite skipn_length_app, List.filter_app, Hrel. reflexivity. }
  destruct (feed w1 (cam_pos w1)) as [[g|c]|] eqn:Hf.
  - cbn [wait_for_focus].
    rewrite (bind_ok _ _ _ _ _ (camera_read_frame _ _ Hf)).
    set (w2 := set_heap _ _).
    assert (H2 : heap w2 !! fresh (dom (heap w1)) = Some (Gray g))
      by apply lookup_insert_eq.
    rewrite (bind_raise _ _ _ _ _ (is_camera_in_focus_gray _ threshold _ _ H2)).
    cbn [snd]. split; [cbn; lia|]. split; [reflexivity|].
    apply (Hprinted w2 []). cbn. now rewrite app_nil_r.
  - rewrite (wait_for_focus_turn _ _ _ _ Hf).
    destruct (Qltb threshold (sharpness c)).
    + cbn [snd]. split; [cbn; lia|]. split; [reflexivity|].
      erewrite Hprinted; [|cbn; rewrite <- !app_assoc; reflexivity].
      reflexivity.
    + intros Hesc. apply Z.eqb_eq in Hesc. rewrite Hesc.
      cbn [snd]. split; [cbn; lia|]. split; [cbn; lia|].
      erewrite Hprinted; [|cbn; rewrite <- !app_assoc; reflexivity].
      reflexivity.
  - cbn [wait_for_focus].
    rewrite (bind_ok _ _ _ _ _ (camera_read_none _ Hf)).
    cbn [snd]. split; [cbn; lia|]. split; [reflexivity|].
    erewrite Hprinted; [|cbn; reflexivity]. reflexivity.
Qed.

Lemma idle_same_inputs (threshold : Q) (w w1 : world) (n : nat) :
  feed w1 = feed w -> keyboard w1 = keyboard w ->
  cam_pos w1 = cam_pos w -> key_pos w1 = key_pos w ->
  idle threshold w n -> idle threshold w1 n.
Proof.
  intros Hf Hk Hc Hp Hidle i Hi. rewrite Hf, Hk, Hc, Hp. now apply Hidle.
Qed.

(** X11: lowering the threshold never makes [wait_for_focus] wait
    longer: if it returns a frame at its turn [n + 1] with the threshold
    [t], then with any threshold [t' <= t] it returns a frame too, having
    read at most [n + 1] frames. *)
Theorem lower_threshold_returns_no_later (t t' : Q) (n : nat) :
  forall (fuel : nat) (w : world) (c : list (list (Z * Z * Z))),
    (t' <= t)%Q ->
    idle t w n ->
    (n < fuel)%nat ->
    feed w (cam_pos w + n)%nat = Some (Color c) ->
    Qltb t (sharpness c) = true ->
    exists frame w',
      wait_for_focus fuel t' w = (Ok (Some (Some frame)), w') /\
      (cam_pos w' <= cam_pos w + S n)%nat.
Proof.
  intros fuel w c Hle. revert fuel w c.
  induction n as [|n IH]; intros fuel w c Hidle Hfuel Hf Hs.
  - rewrite Nat.add_0_r in Hf.
    destruct fuel as [|fuel]; [lia|].
    rewrite (wait_for_focus_turn _ _ _ _ Hf).
    assert (Hs' : Qltb t' (sharpness c) = true).
    { apply Qltb_lt. apply Qltb_lt in Hs. eapply Qle_lt_trans; eassumption. }
    rewrite Hs'. eexists _, _. split; [reflexivity|]. cbn. lia.
  - destruct (Hidle 0%nat ltac:(lia)) as [(c0 & Hc0 & Hs0) Hk0].
    rewrite Nat.add_0_r in Hc0, Hk0.
    destruct fuel as [|fuel]; [lia|].
    rewrite (wait_for_focus_turn _ _ _ _ Hc0).
    destruct (Qltb t' (sharpness c0)).
    + eexists _, _. split; [reflexivity|]. cbn. lia.
    + apply Z.eqb_neq in Hk0. rewrite Hk0.
      set (w1 := next_key (shown_frame t' c0 w)).
      destruct (IH fuel w1 c) as (frame & w' & Hrun & Hcam).
      * intros i Hi. specialize (Hidle (S i) ltac:(lia)).
        cbn. now rewrite <- !Nat.add_succ_comm in Hidle.
      * lia.
      * cbn. rewrite <- Hf. f_equal. lia.
      * exact Hs.
      * exists frame, w'. split; [exact Hrun|]. cbn in Hcam. lia.
Qed.

End FocusMore.

(** ** The report of [main] after a scan *)

Section ScanMore.
Context `{cv : OpenCV}.

Lemma loop_events_no_operator (margin : Q) (W H : Z) (mean var : Q)
    (kps : list KeyPoint) :
  List.filter (fun e => is_large_report e || is_found_report e)
    (loop_events margin W H mean var kps) = [].
Proof.
  induction kps as [|kp rest IH]; [reflexivity|].
  cbn [loop_events flat_map]. rewrite List.filter_app.
  fold (loop_events margin W H mean var rest). rewrite IH, app_nil_r.
  unfold kp_events.
  destruct (edge_ok margin W H kp); [|reflexivity].
  destruct (size_outlier mean var (kp_r kp)); reflexivity.
Qed.

Lemma filter_filter_or {A} (p q : A -> bool) (l : list A) :
  List.filter p l = List.filter p (List.filter (fun x => p x || q x) l).
Proof.
  induction l as [|x l IH]; [reflexivity|].
  cbn. destruct (p x) eqn:Ep; cbn.
  - now rewrite Ep, IH.
  - destruct (q x); cbn; [rewrite Ep|]; exact IH.
Qed.

Lemma filter_large_reports (p : event -> bool) (bs : list Blob) :
  (forall b, p (OperatorLargeBlob b) = true) ->
  List.filter p (map OperatorLargeBlob bs) = map OperatorLargeBlob bs.
Proof.
  intros Hp. induction bs as [|b bs IH]; [reflexivity|].
  cbn. now rewrite Hp, IH.
Qed.

(** The operator's lines of a scan: one "Found" line, then one line for
    each blob above one and a half times the average size. *)
Lemma scan_operator_lines (frame : loc) (config : Config) (w w' : world)
    (c : list (list (Z * Z * Z))) (blobs : list Blob) :
  heap w !! frame = Some (Color c) ->
  scan frame config w = (Ok blobs, w') ->
  let expected := default 0%Q (config !! "expected_count") in
  List.filter (fun e => is_large_report e || is_found_report e) (printed w w') =
    OperatorFound (length blobs) expected
      (expected - inject_Z (Z.of_nat (length blobs))) ::
    map OperatorLargeBlob (List.filter (large_blob (avg_size blobs)) blobs).
Proof.
  intros Hc Hscan expected.
  destruct (detect_blobs_run frame config w c Hc)
    as (g & w1 & _ & Hrun & _ & Hlog & _).
  destruct (scan_inv frame config w w' c blobs Hc Hscan) as (w1' & Hrun' & Hp).
  rewrite Hrun in Hrun'. inversion Hrun'; subst blobs w1'.
  assert (Hlog' : log w' = log w1 ++ printed w1 w').
  { unfold scan in Hscan. rewrite (bind_ok _ _ _ _ _ Hrun) in Hscan.
    unfold bind at 1, emit at 1 in Hscan.
    rewrite (bind_ok _ _ _ _ _ (report_large_run _ _ _)) in Hscan.
    unfold ret in Hscan. inversion Hscan as [Hw'].
    unfold printed. cbn [log add_log]. rewrite <- app_assoc.
    now rewrite skipn_length_app. }
  unfold printed at 1. rewrite Hlog', Hlog, <- !app_assoc, skipn_length_app.
  rewrite Hp. cbn [app]. cbn [List.filter is_large_report is_found_report orb].
  rewrite !List.filter_app, loop_events_no_operator.
  cbn [app List.filter is_large_report is_found_report orb].
  f_equal. now apply filter_large_reports.
Qed.

Lemma heavy_elements_weigh (cut : Q) (l : list Q) :
  (0 <= cut)%Q ->
  (forall x, List.In x l -> (0 <= x)%Q) ->
  let heavy := List.filter (fun x => Qltb cut x) l in
  (cut * Qlen heavy <= Qsum l)%Q /\
  (heavy <> [] -> (cut * Qlen heavy < Qsum l)%Q).
Proof.
  intros Hcut. induction l as [|x l IH]; intros Hpos; cbn zeta.
  - cbn [List.filter Qsum fold_right]. split; [|congruence].
    change (Qlen (@nil Q)) with 0%Q. Lqa.lra.
  - destruct IH as [IH1 IH2]; [intros; apply Hpos; now right|].
    cbn [List.filter Qsum fold_right]. fold (Qsum l).
    pose proof (Hpos x (or_introl eq_refl)) as Hx.
    destruct (Qltb cut x) eqn:E.
    + apply Qltb_lt in E.
      set (heavy := List.filter (fun x0 : Q => Qltb cut x0) l) in *.
      pose proof (Qlen_cons x heavy) as Hc.
      split; [|intros _]; rewrite Hc; Lqa.nra.
    + split; [Lqa.lra|]. intros Hf. specialize (IH2 Hf). Lqa.lra.
Qed.

Lemma Qlen_lt32 {A B} (l1 : list A) (l2 : list B) :
  ((3 # 2) * Qlen l1 < Qlen l2)%Q -> (3 * length l1 < 2 * length l2)%nat.
Proof. unfold Qlen, Qlt. cbn. lia. Qed.

(** Markov's bound on the sizes: fewer than two thirds of a list of
    non-negative sizes are above one and a half times their mean. *)
Lemma markov_count (blobs : list Blob) :
  (forall b, List.In b blobs -> (0 <= b_size b)%Q) ->
  List.filter (large_blob (avg_size blobs)) blobs = [] \/
  (3 * length (List.filter (large_blob (avg_size blobs)) blobs)
   < 2 * length blobs)%nat.
Proof.
  intros Hpos.
  destruct (List.filter (large_blob (avg_size blobs)) blobs) as [|b0 bs] eqn:Hk;
    [now left|right].
  rewrite <- Hk.
  assert (Hne : blobs <> []).
  { intros E. rewrite E in Hk. discriminate. }
  set (sizes := map b_size blobs).
  assert (Hsne : sizes <> []) by (destruct blobs; [congruence|discriminate]).
  assert (Havg : avg_size blobs = np_mean sizes)
    by (destruct blobs; [congruence|reflexivity]).
  assert (Hspos : forall x, List.In x sizes -> (0 <= x)%Q).
  { intros x Hx. apply in_map_iff in Hx as (b & <- & Hb). now apply Hpos. }
  pose proof (np_mean_nonneg sizes Hspos) as Hm.
  pose proof (np_mean_sum sizes Hsne) as Hsum.
  set (cut := (np_mean sizes * (3 # 2))%Q).
  assert (Hcut : (0 <= cut)%Q) by (unfold cut; Lqa.lra).
  destruct (heavy_elements_weigh cut sizes Hcut Hspos) as [_ Hstrict].
  assert (Hlen : length (List.filter (large_blob (avg_size blobs)) blobs) =
                 length (List.filter (fun x => Qltb cut x) sizes)).
  { unfold sizes. rewrite filter_map_length. unfold large_blob, cut.
    now rewrite Havg. }
  assert (Hheavy : List.filter (fun x => Qltb cut x) sizes <> []).
  { intros E. rewrite E, Hk in Hlen. discriminate. }
  specialize (Hstrict Hheavy). rewrite Hsum in Hstrict.
  set (k := Qlen (List.filter (fun x => Qltb cut x) sizes)) in *.
  unfold cut in Hstrict.
  assert (Hk0 : (0 <= k)%Q) by apply Qlen_nonneg.
  assert (Hmpos : (0 < np_mean sizes)%Q).
  { destruct (Qlt_le_dec 0 (np_mean sizes)) as [|Hle]; [assumption|].
    assert (E : (np_mean sizes == 0)%Q) by Lqa.lra.
    rewrite E in Hstrict. Lqa.lra. }
  assert (Hq : ((3 # 2) * k < Qlen sizes)%Q).
  { apply (Qmult_lt_l _ _ (np_mean sizes) Hmpos). Lqa.nra. }
  apply Qlen_lt32 in Hq. rewrite Hlen.
  unfold sizes in Hq at 2. rewrite length_map in Hq. exact Hq.
Qed.

(** X12: when no key point has a negative size, [main] never reports
    every blob of a scan as large: the "Large blob" lines are fewer than
    two thirds of the blobs found (Markov's bound for one and a half
    times the mean), which are the blobs in the "Found" line. *)
Theorem fewer_than_two_thirds_large (frame : loc) (config : Config)
    (w w' : world) (c : list (list (Z * Z * Z))) (blobs : list Blob) :
  heap w !! frame = Some (Color c) ->
  scan frame config w = (Ok blobs, w') ->
  (forall kp, List.In kp (keypoints_of c config) -> (0 <= size kp)%Q) ->
  let large := List.filter is_large_report (printed w w') in
  large = [] \/ (3 * length large < 2 * length blobs)%nat.
Proof.
  intros Hc Hscan Hpos large.
  pose proof (scan_operator_lines frame config w w' c blobs Hc Hscan) as Hlines.
  cbn zeta in Hlines.
  assert (Hlarge : large =
            map OperatorLargeBlob
              (List.filter (large_blob (avg_size blobs)) blobs)).
  { unfold large.
    rewrite (filter_filter_or is_large_report is_found_report), Hlines.
    cbn [List.filter is_large_report]. now apply filter_large_reports. }
  destruct (scan_inv frame config w w' c blobs Hc Hscan) as (w1 & Hrun & _).
  destruct (detect_blobs_inv frame config w w1 c blobs Hc Hrun) as (Hb & _).
  assert (Hbpos : forall b, List.In b blobs -> (0 <= b_size b)%Q).
  { intros b Hin. rewrite Hb in Hin.
    apply returned_blob_origin in Hin as (kp & Hk & _ & _ & <-).
    now apply Hpos. }
  rewrite Hlarge. destruct (markov_count blobs Hbpos) as [E|Hlt].
  - left. now rewrite E.
  - right. now rewrite length_map.
Qed.

End ScanMore.

(** ** The loop of [main] *)

Section MainMore.
Context `{cv : OpenCV}.

Lemma printed_same (w w' : world) : log w' = log w -> printed w w' = [].
Proof. intros E. unfold printed. rewrite E. apply skipn_all. Qed.

Lemma printed_app (w w' : world) (evs : list event) :
  log w' = log w ++ evs -> printed w w' = evs.
Proof. intros E. unfold printed. rewrite E. apply skipn_length_app. Qed.

Lemma written_app (s s' : session) (ls : list main_line) :
  transcript s' = transcript s ++ ls -> written s s' = ls.
Proof. intros E. unfold written. rewrite E. apply skipn_length_app. Qed.

Lemma main_loop_turn (fuel : nat) (config : Config) (s : session) :
  main_loop (S fuel) config s =
  let w := world_of s in
  match feed w (cam_pos w) with
  | None =>
      (Ok true, mkSession (next_frame w) (transcript s ++ [OperatorCameraError]))
  | Some a =>
      let key := Z.land (keyboard w (key_pos w)) 255 in
      if key =? 27 then (Ok true, tray_shown a s)
      else if key =? 32 then
        and_then (call (scan (fresh (dom (heap w))) config))
          (fun _ => main_loop fuel config) (tray_shown a s)
      else main_loop fuel config (tray_shown a s)
  end.
Proof.
  cbn zeta. cbn [main_loop]. unfold and_then at 1, call at 1.
  destruct (feed (world_of s) (cam_pos (world_of s))) as [a|] eqn:Hf.
  - rewrite (camera_read_frame _ _ Hf).
    set (frame := fresh (dom (heap (world_of s)))).
    set (w1 := set_heap (insert frame a) (next_frame (world_of s))).
    rewrite (printed_same (world_of s) w1 eq_refl). cbn [map]. rewrite app_nil_r.
    unfold and_then at 1, call at 1. cbn [world_of transcript].
    assert (H1 : heap w1 !! frame = Some a) by apply lookup_insert_eq.
    rewrite (imshow_ok _ _ _ _ H1).
    rewrite (printed_app w1 (add_log (Imshow "Tray View" a) w1) [Imshow "Tray View" a] eq_refl).
    cbn [map]. unfold and_then at 1, call at 1, waitKey at 1.
    cbn [world_of transcript].
    rewrite (printed_same (add_log (Imshow "Tray View" a) w1)
               (next_key (add_log (Imshow "Tray View" a) w1)) eq_refl).
    cbn [map]. rewrite app_nil_r.
    cbn [keyboard key_pos add_log]. fold (tray_shown a s).
    unfold w1 at 1 2 3 4. cbn [keyboard key_pos set_heap next_frame].
    destruct (_ =? 27); [reflexivity|]. destruct (_ =? 32); reflexivity.
  - rewrite (camera_read_none _ Hf).
    rewrite (printed_same (world_of s) (next_frame (world_of s)) eq_refl).
    cbn [map]. rewrite app_nil_r. reflexivity.
Qed.

Lemma loop_events_quiet (p : event -> bool) (margin : Q) (W H : Z)
    (mean var : Q) (kps : list KeyPoint) :
  (forall x y r, p (PrintBlobCenter x y r) = false) ->
  (forall x y r, p (PrintNonAverage x y r) = false) ->
  p PrintExcluded = false ->
  List.filter p (loop_events margin W H mean var kps) = [].
Proof.
  intros Hb Hn He. induction kps as [|kp rest IH]; [reflexivity|].
  cbn [loop_events flat_map]. rewrite List.filter_app.
  fold (loop_events margin W H mean var rest). rewrite IH, app_nil_r.
  unfold kp_events. cbn [List.filter]. rewrite Hb.
  destruct (edge_ok margin W H kp).
  - destruct (size_outlier mean var (kp_r kp)); [|reflexivity].
    cbn [List.filter]. now rewrite Hn.
  - cbn [List.filter]. now rewrite He.
Qed.

Lemma filter_map_quiet {A B} (p : B -> bool) (f : A -> B) (l : list A) :
  (forall a, p (f a) = false) -> List.filter p (map f l) = [].
Proof.
  intros Hp. induction l as [|a l IH]; [reflexivity|].
  cbn. now rewrite Hp.
Qed.

(** A scan of a BGR frame: it reads neither the camera nor the keyboard,
    writes one "Found" line and does not release the camera. *)
Lemma scan_run (frame : loc) (config : Config) (w : world)
    (c : list (list (Z * Z * Z))) :
  heap w !! frame = Some (Color c) ->
  exists blobs w' evs,
    scan frame config w = (Ok blobs, w') /\
    log w' = log w ++ evs /\
    feed w' = feed w /\ cam_pos w' = cam_pos w /\
    keyboard w' = keyboard w /\ key_pos w' = key_pos w /\
    length (List.filter is_found_report evs) = 1%nat /\
    List.filter is_release evs = [].
Proof.
  intros Hc.
  destruct (detect_blobs_run frame config w c Hc)
    as (g & w1 & _ & Hrun & _ & Hlog & Hf & Hcp & Hk & Hkp).
  eexists _, _, _. split.
  { unfold scan. rewrite (bind_ok _ _ _ _ _ Hrun).
    unfold bind at 1, emit at 1.
    rewrite (bind_ok _ _ _ _ _ (report_large_run _ _ _)). reflexivity. }
  cbn [log feed cam_pos keyboard key_pos add_log].
  rewrite Hlog, <- !app_assoc.
  split; [reflexivity|]. repeat (split; [assumption|]).
  rewrite !List.filter_app, !length_app.
  rewrite (loop_events_quiet is_found_report), (loop_events_quiet is_release)
    by reflexivity.
  cbn [List.filter is_found_report is_release app length].
  rewrite !filter_map_quiet by reflexivity.
  split; reflexivity.
Qed.

Lemma scan_gray (frame : loc) (config : Config) (w : world)
    (g : list (list Z)) :
  heap w !! frame = Some (Gray g) ->
  scan frame config w =
  (Raise (CvError "Invalid number of channels in input image"), w).
Proof.
  intros Hg. unfold scan, detect_blobs.
  rewrite (bind_raise _ _ _ _ _
             (bind_raise _ _ _ _ _ (cvtColor_gray_rejects _ _ _ Hg))).
  reflexivity.
Qed.

Lemma watching_shift (w w1 : world) (a : ndarray) (n : nat) :
  feed w1 = feed w -> keyboard w1 = keyboard w ->
  cam_pos w1 = S (cam_pos w) -> key_pos w1 = S (key_pos w) ->
  feed w (cam_pos w) = Some a ->
  Z.land (keyboard w (key_pos w)) 255 <> 27 ->
  (Z.land (keyboard w (key_pos w)) 255 = 32 -> exists c, a = Color c) ->
  watching w1 n -> watching w (S n).
Proof.
  intros Hf Hk Hc Hp H0 Hk0 Hs Hw i Hi.
  destruct i as [|i].
  - rewrite !Nat.add_0_r. eauto.
  - specialize (Hw i ltac:(lia)).
    rewrite Hf, Hk, Hc, Hp in Hw.
    now rewrite <- !Nat.add_succ_comm.
Qed.

Lemma space_presses_shift (w w1 : world) (n : nat) :
  keyboard w1 = keyboard w -> key_pos w1 = S (key_pos w) ->
  space_presses w (S n) =
  ((if (Z.land (keyboard w (key_pos w)) 255 =? 32)%Z then 1 else 0)
   + space_presses w1 n)%nat.
Proof.
  intros Hk Hp. unfold space_presses. rewrite Hk, Hp.
  cbn [seq List.filter]. destruct (_ =? 32); reflexivity.
Qed.

Lemma space_presses_last (w : world) (n : nat) :
  space_presses w (S n) =
  (space_presses w n
   + (if (Z.land (keyboard w (key_pos w + n)%nat) 255 =? 32)%Z then 1 else 0))%nat.
Proof.
  unfold space_presses. rewrite seq_S, List.filter_app, length_app.
  cbn [List.filter]. destruct (_ =? 32); reflexivity.
Qed.

Lemma loop_end_shift (w w1 w' : world) (n : nat) (r : res bool) :
  feed w1 = feed w -> keyboard w1 = keyboard w ->
  cam_pos w1 = S (cam_pos w) -> key_pos w1 = S (key_pos w) ->
  loop_end w1 w' n r -> loop_end w w' (S n) r.
Proof.
  intros Hf Hk Hc Hp. unfold loop_end. rewrite Hf, Hk, Hc, Hp.
  cbn [Nat.add].
  destruct r as [[|]|e]; repeat rewrite Nat.add_succ_r; auto.
Qed.

(** A run of the loop: what it wrote, what it read, and why it ended. *)
Lemma main_loop_trace (config : Config) (fuel : nat) :
  forall (s s' : session) (r : res bool),
    main_loop fuel config s = (r, s') ->
    let w := world_of s in
    let w' := world_of s' in
    exists (n : nat) (mid : list main_line),
      transcript s' = transcript s ++ mid /\
      List.filter is_closing mid = [] /\
      length (List.filter is_found_line mid) = space_presses w n /\
      watching w n /\
      loop_end w w' n r /\
      match r with Ok false => n = fuel | _ => (n < fuel)%nat end.
Proof.
  induction fuel as [|fuel IH]; intros s s' r Hrun; cbn zeta.
  - cbn in Hrun. inversion Hrun; subst r s'.
    exists 0%nat, []. rewrite app_nil_r. unfold loop_end.
    rewrite !Nat.add_0_r.
    repeat split; auto. intros i Hi. lia.
  - rewrite main_loop_turn in Hrun. cbn zeta in Hrun.
    destruct (feed (world_of s) (cam_pos (world_of s))) as [a|] eqn:Hf.
    2:{ inversion Hrun; subst r s'. cbn [world_of transcript].
        exists 0%nat, [OperatorCameraError]. unfold loop_end.
        rewrite !Nat.add_0_r.
        repeat split; auto; try (intros i Hi; lia); try lia.
        cbn. lia. }
    set (key := Z.land (keyboard (world_of s) (key_pos (world_of s))) 255) in *.
    destruct (key =? 27) eqn:Hesc.
    { inversion Hrun; subst r s'. cbn [world_of transcript tray_shown].
      exists 0%nat, [Output (Imshow "Tray View" a)]. unfold loop_end.
      rewrite !Nat.add_0_r.
      apply Z.eqb_eq in Hesc.
      repeat split; auto; try (intros i Hi; lia); try lia.
      - cbn. lia.
      - right. repeat split; eauto. cbn. lia. }
    apply Z.eqb_neq in Hesc.
    set (s1 := tray_shown a s) in *.
    assert (Hstep : forall s2 mid2,
               transcript s2 = transcript s1 ++ mid2 ->
               List.filter is_closing mid2 = [] ->
               length (List.filter is_found_line mid2) =
                 (if (key =? 32)%Z then 1 else 0)%nat ->
               feed (world_of s2) = feed (world_of s) ->
               keyboard (world_of s2) = keyboard (world_of s) ->
               cam_pos (world_of s2) = S (cam_pos (world_of s)) ->
               key_pos (world_of s2) = S (key_pos (world_of s)) ->
               (key = 32 -> exists c, a = Color c) ->
               main_loop fuel config s2 = (r, s') ->
               exists (n : nat) (mid : list main_line),
                 transcript s' = transcript s ++ mid /\
                 List.filter is_closing mid = [] /\
                 length (List.filter is_found_line mid) =
                   space_presses (world_of s) n /\
                 watching (world_of s) n /\
                 loop_end (world_of s) (world_of s') n r /\
                 match r with Ok false => n = S fuel | _ => (n < S fuel)%nat end).
    { intros s2 mid2 Ht Hcl Hfound Hfeed Hkeys Hcam Hkey Hcolor Hrest.
      destruct (IH s2 s' r Hrest) as (n & mid & Ht' & Hcl' & Hfound' & Hw & Hend & Hn).
      exists (S n), (Output (Imshow "Tray View" a) :: mid2 ++ mid).
      split.
      { rewrite Ht', Ht. unfold s1. cbn [transcript tray_shown].
        now rewrite <- !app_assoc. }
      split.
      { cbn [List.filter is_closing]. now rewrite List.filter_app, Hcl, Hcl'. }
      split.
      { cbn [List.filter is_found_line].
        rewrite List.filter_app, length_app, Hfound, Hfound'.
        now rewrite (space_presses_shift (world_of s) (world_of s2) n Hkeys Hkey). }
      split.
      { apply (watching_shift (world_of s) (world_of s2) a n); auto. }
      split.
      { now apply (loop_end_shift (world_of s) (world_of s2)). }
      destruct r as [[|]|e]; lia. }
    assert (Hheap : heap (world_of s1) !! fresh (dom (heap (world_of s))) = Some a).
    { cbn. apply lookup_insert_eq. }
    destruct (key =? 32) eqn:Hsp.
    + apply Z.eqb_eq in Hsp. destruct a as [g|c].
      * unfold and_then, call in Hrun.
        rewrite (scan_gray _ config _ g Hheap) in Hrun.
        inversion Hrun; subst r s'. cbn [world_of transcript].
        rewrite (printed_same _ _ eq_refl). cbn [map]. rewrite app_nil_r.
        exists 0%nat, [Output (Imshow "Tray View" (Gray g))].
        unfold loop_end. rewrite !Nat.add_0_r.
        repeat split; auto; try (intros i Hi; lia); try lia.
        -- eauto.
        -- cbn. lia.
        -- cbn. lia.
      * destruct (scan_run _ config _ c Hheap)
          as (blobs & w2 & evs & Hscan & Hlog & Hfeed & Hcam & Hkeys & Hkey
              & Hfound & Hrel).
        unfold and_then, call in Hrun. rewrite Hscan in Hrun.
        rewrite (printed_app _ _ _ Hlog) in Hrun.
        apply (Hstep _ (map Output evs)) in Hrun; auto.
        -- rewrite List.filter_map_swap.
           assert (E : List.filter (fun e => is_closing (Output e)) evs = [])
             by exact Hrel.
           now rewrite E.
        -- rewrite List.filter_map_swap, length_map. exact Hfound.
        -- eauto.
    + apply Z.eqb_neq in Hsp.
      apply (Hstep s1 []); auto.
      * now rewrite app_nil_r.
      * intros E. contradiction.
Qed.

Lemma main_run (fuel : nat) (config : Config) (s : session) :
  main fuel config s =
  match main_loop fuel config
          (mkSession (world_of s) (transcript s ++ [PrintPressSpace])) with
  | (Ok true, s1) =>
      (Ok true,
       mkSession (add_log CameraRelease (world_of s1))
         (transcript s1 ++ [Output CameraRelease; DestroyAllWindows]))
  | (Ok false, s1) => (Ok false, s1)
  | (Raise e, s1) => (Raise e, s1)
  end.
Proof.
  unfold main, and_then at 1, say at 1.
  unfold and_then at 1.
  destruct (main_loop fuel config _) as [[[|]|e] s1]; try reflexivity.
  unfold and_then, call, say, emit, done. cbn [world_of transcript].
  rewrite (printed_app (world_of s1) (add_log CameraRelease (world_of s1))
             [CameraRelease] eq_refl). cbn [map].
  now rewrite <- app_assoc.
Qed.

(** X13: [main] releases the camera and closes the windows only as the
    last thing before it returns.  When an exception ends it, it has
    done neither: the camera stays open. *)
Theorem main_closes_only_on_return (fuel : nat) (config : Config) (s : session) :
  match fst (main fuel config s) with
  | Ok true =>
      exists mid,
        written s (snd (main fuel config s)) =
          PrintPressSpace :: mid ++ [Output CameraRelease; DestroyAllWindows] /\
        List.filter is_closing mid = []
  | _ =>
      exists mid,
        written s (snd (main fuel config s)) = PrintPressSpace :: mid /\
        List.filter is_closing mid = []
  end.
Proof.
  rewrite main_run.
  destruct (main_loop fuel config _) as [r s1] eqn:Hrun.
  destruct (main_loop_trace config fuel _ _ _ Hrun)
    as (n & mid & Ht & Hcl & _).
  cbn [transcript] in Ht.
  destruct r as [[|]|e]; cbn [fst snd]; exists mid; (split; [|exact Hcl]);
    apply written_app; cbn [transcript]; rewrite Ht, <- ?app_assoc; reflexivity.
Qed.

(** X14: while [main] runs without an exception it writes one "Found"
    line for each SPACE among the keys it has read, and none otherwise. *)
Theorem one_found_line_per_space (fuel : nat) (config : Config)
    (s s' : session) (finished : bool) :
  main fuel config s = (Ok finished, s') ->
  length (List.filter is_found_line (written s s')) =
  space_presses (world_of s)
    (key_pos (world_of s') - key_pos (world_of s)).
Proof.
  rewrite main_run.
  destruct (main_loop fuel config _) as [r s1] eqn:Hrun.
  destruct (main_loop_trace config fuel _ _ _ Hrun)
    as (n & mid & Ht & _ & Hfound & _ & Hend & _).
  cbn [transcript world_of] in Ht, Hfound, Hend.
  destruct r as [[|]|e]; intros Hmain; inversion Hmain; subst finished s'.
  - rewrite (written_app s _ (PrintPressSpace :: mid ++
               [Output CameraRelease; DestroyAllWindows])).
    2:{ cbn [transcript]. rewrite Ht, <- !app_assoc. reflexivity. }
    cbn [List.filter is_found_line]. rewrite List.filter_app.
    cbn [List.filter is_found_line]. rewrite app_nil_r, Hfound.
    cbn [world_of key_pos add_log].
    destruct Hend as (_ & [(_ & Hk)|(_ & Hesc & Hk)]); rewrite Hk.
    + f_equal. lia.
    + replace (key_pos (world_of s) + S n - key_pos (world_of s))%nat
        with (S n) by lia.
      rewrite space_presses_last, Hesc. cbn. lia.
  - rewrite (written_app s _ (PrintPressSpace :: mid)).
    2:{ rewrite Ht, <- !app_assoc. reflexivity. }
    cbn [List.filter is_found_line]. rewrite Hfound.
    destruct Hend as (_ & Hk). rewrite Hk. f_equal. lia.
Qed.


(** X16: ESC ends [main]: when the camera keeps delivering frames and the
    first ESC comes after the frame [n], with every SPACE before it on a
    BGR frame, [main] returns, having read [n + 1] frames and as many keys,
    and released the camera. *)
Theorem esc_ends_main (fuel : nat) (config : Config) (s : session)
    (n : nat) (a : ndarray) :
  let w := world_of s in
  watching w n ->
  feed w (cam_pos w + n)%nat = Some a ->
  Z.land (keyboard w (key_pos w + n)%nat) 255 = 27 ->
  (n < fuel)%nat ->
  exists s',
    main fuel config s = (Ok true, s') /\
    cam_pos (world_of s') = (cam_pos w + S n)%nat /\
    key_pos (world_of s') = (key_pos w + S n)%nat /\
    last (log (world_of s')) = Some CameraRelease.
Proof.
  cbn zeta. intros Hw Ha Hesc Hfuel. rewrite main_run.
  destruct (main_loop fuel config _) as [r s1] eqn:Hrun.
  destruct (main_loop_trace config fuel _ _ _ Hrun)
    as (m & mid & _ & _ & _ & Hw' & Hend & Hm).
  cbn [world_of] in Hw', Hend.
  assert (Hmn : m = n).
  { destruct (Nat.lt_trichotomy m n) as [Hlt|[E|Hgt]]; [|exact E|].
    - destruct (Hw m Hlt) as (a' & Ha' & Hne & Hcol).
      unfold loop_end in Hend. destruct r as [[|]|e].
      + destruct Hend as (_ & [(Hnone & _)|(_ & Hesc' & _)]); congruence.
      + lia.
      + destruct Hend as (_ & (g & Hg) & Hsp & _).
        destruct (Hcol Hsp) as (c & ->). congruence.
    - destruct (Hw' n Hgt) as (a' & Ha' & Hne & _). congruence. }
  subst m. unfold loop_end in Hend. destruct r as [[|]|e].
  - destruct Hend as (Hcam & [(Hnone & _)|(_ & _ & Hkey)]); [congruence|].
    eexists. split; [reflexivity|]. cbn [world_of cam_pos key_pos add_log log].
    repeat split; auto. apply last_snoc.
  - lia.
  - destruct Hend as (_ & _ & Hsp & _). rewrite Hesc in Hsp. discriminate.
Qed.

End MainMore.

Module ExtraRuns.
Import Sample SampleSession.

(** ** Further runs on concrete inputs *)

Lemma larger_margin_returns_sublist_witness :
  sublist [mkBlob (100, 100)%Q 80] (map to_blob six).
Proof.
  assert (Himg : heap (still tray200) !! 0%nat = Some (Color (pixels 200 200)))
    by (vm_compute; reflexivity).
  assert (Hle : (10 <= 45)%Q) by (unfold Qle; cbn; lia).
  assert (Hrun1 : @detect_blobs (cv_with six) 0%nat
                    (<["blob_margin" := 10%Q]> ∅) (still tray200) =
                  (Ok (map to_blob six),
                   snd (@detect_blobs (cv_with six) 0%nat
                          (<["blob_margin" := 10%Q]> ∅) (still tray200))))
    by (vm_compute; reflexivity).
  assert (Hrun2 : @detect_blobs (cv_with six) 0%nat
                    (<["blob_margin" := 45%Q]> ∅) (still tray200) =
                  (Ok [mkBlob (100, 100)%Q 80],
                   snd (@detect_blobs (cv_with six) 0%nat
                          (<["blob_margin" := 45%Q]> ∅) (still tray200))))
    by (vm_compute; reflexivity).
  exact (@larger_margin_returns_sublist (cv_with six) 0%nat ∅ _ _ _ _
           10%Q 45%Q _ _ Himg Hle Hrun1 Hrun2).
Defined.

Lemma returned_blob_fits_witness :
  (inject_Z (2 * 10) < inject_Z 64 - 2 * 10 /\
   inject_Z (2 * 10) < inject_Z 64 - 2 * 10)%Q.
Proof.
  assert (Hrun : @detect_blobs (cv_with one_blob) 0%nat ∅ (still tray) =
                 (Ok [mkBlob (30, 30)%Q 20],
                  snd (@detect_blobs (cv_with one_blob) 0%nat ∅ (still tray))))
    by (vm_compute; reflexivity).
  assert (Himg : heap (still tray) !! 0%nat = Some (Color (pixels 64 64)))
    by (vm_compute; reflexivity).
  pose proof (@returned_blob_fits (cv_with one_blob) 0%nat ∅
                _ _ _ _ (mkBlob (30, 30)%Q 20) Himg Hrun
                (or_introl eq_refl)) as Hw.
  vm_compute in Hw. vm_compute. exact Hw.
Defined.

Lemma returned_plus_excluded_witness :
  let w := still tray200 in
  let w' := snd (@detect_blobs (cv_with seven) 0%nat ∅ w) in
  (length (map to_blob six) + length (List.filter is_excluded (printed w w'))
   = 7)%nat /\
  List.In (PrintKeypoints 7) (printed w w').
Proof.
  assert (Hrun : @detect_blobs (cv_with seven) 0%nat ∅ (still tray200) =
                 (Ok (map to_blob six),
                  snd (@detect_blobs (cv_with seven) 0%nat ∅ (still tray200))))
    by (vm_compute; reflexivity).
  assert (Himg : heap (still tray200) !! 0%nat = Some (Color (pixels 200 200)))
    by (vm_compute; reflexivity).
  exact (@returned_plus_excluded (cv_with seven) 0%nat ∅ _ _ _ _ Himg Hrun).
Defined.


Lemma no_keypoints_no_blobs_witness :
  ([] : list Blob) = [] /\
  exists g,
    @thresholded (cv_with []) (pixels 64 64) = Gray g /\
    printed (still tray) (snd (@detect_blobs (cv_with []) 0%nat ∅ (still tray))) =
      [Imshow "Thresholded Image" (Gray g);
       PrintContours (@count_contours (cv_with []) (Gray g));
       PrintKeypoints 0;
       Imshow "Blobs" (Color (@gray2bgr (cv_with []) g))].
Proof.
  assert (Hrun : @detect_blobs (cv_with []) 0%nat ∅ (still tray) =
                 (Ok [], snd (@detect_blobs (cv_with []) 0%nat ∅ (still tray))))
    by (vm_compute; reflexivity).
  assert (Himg : heap (still tray) !! 0%nat = Some (Color (pixels 64 64)))
    by (vm_compute; reflexivity).
  exact (@no_keypoints_no_blobs (cv_with []) 0%nat ∅ _ _ _ _ Himg Hrun eq_refl).
Defined.

Lemma detect_blobs_repeatable_witness :
  let w' := snd (@detect_blobs (cv_with one_blob) 0%nat ∅ (still tray)) in
  exists w'',
    @detect_blobs (cv_with one_blob) 0%nat ∅ w' =
      (Ok [mkBlob (30, 30)%Q 20], w'') /\
    printed w' w'' = printed (still tray) w'.
Proof.
  assert (Hrun : @detect_blobs (cv_with one_blob) 0%nat ∅ (still tray) =
                 (Ok [mkBlob (30, 30)%Q 20],
                  snd (@detect_blobs (cv_with one_blob) 0%nat ∅ (still tray))))
    by (vm_compute; reflexivity).
  assert (Himg : heap (still tray) !! 0%nat = Some (Color (pixels 64 64)))
    by (vm_compute; reflexivity).
  exact (@detect_blobs_repeatable (cv_with one_blob) 0%nat ∅ _ _ _ _ Himg Hrun).
Defined.

Lemma fewer_than_a_quarter_flagged_witness :
  let w := still tray200 in
  let w' := snd (@detect_blobs (cv_with six) 0%nat ∅ w) in
  flagged w w' = [] \/
  (4 * length (flagged w w')
   < length (@keypoints_of (cv_with six) (pixels 200 200) ∅))%nat.
Proof.
  assert (Hrun : @detect_blobs (cv_with six) 0%nat ∅ (still tray200) =
                 (Ok (map to_blob six),
                  snd (@detect_blobs (cv_with six) 0%nat ∅ (still tray200))))
    by (vm_compute; reflexivity).
  assert (Himg : heap (still tray200) !! 0%nat = Some (Color (pixels 200 200)))
    by (vm_compute; reflexivity).
  assert (Hwhole : forall kp,
            List.In kp (@keypoints_of (cv_with six) (pixels 200 200) ∅) ->
            (size kp / 2 == inject_Z (kp_r kp))%Q).
  { intros kp Hin. change (List.In kp six) in Hin.
    repeat (destruct Hin as [<-|Hin]; [vm_compute; reflexivity|]).
    destruct Hin. }
  exact (@fewer_than_a_quarter_flagged (cv_with six) 0%nat ∅ _ _ _ _
           Himg Hrun Hwhole).
Defined.


Lemma wait_for_focus_reads_and_release_witness :
  let w := world_with tray (camera_of (sharp 32 16)) esc_pressed in
  let w' := snd (@wait_for_focus (cv_with []) 1 9 w) in
  cam_pos w' = 1%nat /\
  key_pos w' = 0%nat /\
  List.filter is_release (printed w w') = [CameraRelease].
Proof.
  assert (Hidle : @idle (cv_with []) 9
                    (world_with tray (camera_of (sharp 32 16)) esc_pressed) 0)
    by (intros i Hi; lia).
  pose proof (@wait_for_focus_reads_and_release (cv_with []) 9 0 1
                (world_with tray (camera_of (sharp 32 16)) esc_pressed)
                Hidle (Nat.lt_0_succ 0)) as Hw.
  vm_compute in Hw. vm_compute. exact Hw.
Defined.

Lemma lower_threshold_returns_no_later_witness :
  let w := world_with tray (camera_of (sharp 32 16)) no_keys in
  exists frame w',
    @wait_for_focus (cv_with []) 1 5 w = (Ok (Some (Some frame)), w') /\
    (cam_pos w' <= cam_pos w + 1)%nat.
Proof.
  assert (Hle : (5 <= 9)%Q) by (unfold Qle; cbn; lia).
  assert (Hidle : @idle (cv_with []) 9
                    (world_with tray (camera_of (sharp 32 16)) no_keys) 0)
    by (intros i Hi; lia).
  assert (Hsharp : Qltb 9 (@sharpness (cv_with [])
                             (paint (0, 0, 0) 0 0 (pixels 32 16))) = true)
    by (vm_compute; reflexivity).
  exact (@lower_threshold_returns_no_later (cv_with []) 9 5 0 1
           (world_with tray (camera_of (sharp 32 16)) no_keys)
           (paint (0, 0, 0) 0 0 (pixels 32 16))
           Hle Hidle (Nat.lt_0_succ 0) eq_refl Hsharp).
Defined.

Lemma fewer_than_two_thirds_large_witness :
  let w := still tray200 in
  let w' := snd (@scan (cv_with five) 0%nat margin5 w) in
  let large := List.filter is_large_report (printed w w') in
  large = [] \/ (3 * length large < 2 * length (map to_blob five))%nat.
Proof.
  assert (Hrun : @scan (cv_with five) 0%nat margin5 (still tray200) =
                 (Ok (map to_blob five),
                  snd (@scan (cv_with five) 0%nat margin5 (still tray200))))
    by (vm_compute; reflexivity).
  assert (Himg : heap (still tray200) !! 0%nat = Some (Color (pixels 200 200)))
    by (vm_compute; reflexivity).
  assert (Hpos : forall kp,
            List.In kp (@keypoints_of (cv_with five) (pixels 200 200) margin5) ->
            (0 <= size kp)%Q).
  { intros kp Hin. change (List.In kp five) in Hin.
    repeat (destruct Hin as [<-|Hin]; [vm_compute; discriminate|]).
    destruct Hin. }
  exact (@fewer_than_two_thirds_large (cv_with five) 0%nat margin5 _ _ _ _
           Himg Hrun Hpos).
Defined.

Lemma one_found_line_per_space_witness :
  let s := session_with (camera_of tray200) space_then_esc in
  let s' := snd (@main (cv_with five) 3 margin5 s) in
  length (List.filter is_found_line (written s s')) =
  space_presses (world_of s)
    (key_pos (world_of s') - key_pos (world_of s)).
Proof.
  assert (Hrun : @main (cv_with five) 3 margin5
                   (session_with (camera_of tray200) space_then_esc) =
                 (Ok true,
                  snd (@main (cv_with five) 3 margin5
                         (session_with (camera_of tray200) space_then_esc))))
    by (vm_compute; reflexivity).
  exact (@one_found_line_per_space (cv_with five) 3 margin5 _ _ _ Hrun).
Defined.

Lemma esc_ends_main_witness :
  let s := session_with (camera_of tray200) space_then_esc in
  exists s',
    @main (cv_with five) 3 margin5 s = (Ok true, s') /\
    cam_pos (world_of s') = (cam_pos (world_of s) + 2)%nat /\
    key_pos (world_of s') = (key_pos (world_of s) + 2)%nat /\
    last (log (world_of s')) = Some CameraRelease.
Proof.
  assert (Hwatch : watching
                     (world_of (session_with (camera_of tray200) space_then_esc))
                     1).
  { intros i Hi. assert (i = 0%nat) as -> by lia.
    exists tray200. split; [reflexivity|]. split.
    - vm_compute. discriminate.
    - intros _. now exists (pixels 200 200). }
  exact (@esc_ends_main (cv_with five) 3 margin5
           (session_with (camera_of tray200) space_then_esc) 1 tray200
           Hwatch eq_refl eq_refl (le_S 2 2 (le_n 2))).
Defined.

End ExtraRuns.
